(** * Automated email report sender: the report-build pipeline of [main.py]

    A shallow embedding of [read_data], [make_chart], [render_html],
    [export_pdf] and [build_and_send], together with the parts of Python,
    pandas and Jinja2 those functions rely on; [load_env] and the settings
    [send_email] reads before it builds the message come after them.

    Conventions.
    - Python [str] and [bytes] values are Rocq strings (sequences of 8-bit
      characters; text is its UTF-8 encoding).
    - A Python exception is a value of [exception]; a call that may raise
      returns a [result].
    - A pandas [int64] column holds integers reduced into the signed 64-bit
      range; a [float64] column holds IEEE 754 binary64 values, written
      with the Standard Library's [spec_float].
    - What the program asks of matplotlib, reportlab, the SMTP client and of
      the sorting and summation kernels below pandas is collected in the
      class [Runtime]. *)

From Stdlib Require Import ZArith NArith List Bool Ascii String Lia.
From Stdlib Require Import DecimalString DecimalN Permutation Sorted.
From Stdlib Require Import Floats.SpecFloat.
From stdpp Require Import base option gmap strings.

Import ListNotations.
Local Open Scope string_scope.
Local Open Scope Z_scope.

(** ** Python: exceptions and results *)

Inductive exception : Type :=
  | FileNotFoundError (path : string)
  | KeyError (key : string)
  | IndexError
  | ValueError (msg : string)
  | TemplateNotFound (name : string)
  | RuntimeError (msg : string).

(** The class name of an exception, as [type(e).__name__] gives it. *)
Definition exception_name (e : exception) : string :=
  match e with
  | FileNotFoundError _ => "FileNotFoundError"
  | KeyError _ => "KeyError"
  | IndexError => "IndexError"
  | ValueError _ => "ValueError"
  | TemplateNotFound _ => "TemplateNotFound"
  | RuntimeError _ => "RuntimeError"
  end.

Inductive result (A : Type) : Type :=
  | Ok (a : A)
  | Raise (e : exception).

Arguments Ok {A} a.
Arguments Raise {A} e.

Definition bind {A B : Type} (r : result A) (k : A -> result B) : result B :=
  match r with
  | Ok a => k a
  | Raise e => Raise e
  end.

Declare Scope py_scope.
Delimit Scope py_scope with py.
Notation "x <- r ;; k" := (bind r (fun x => k))
  (at level 100, r at next level, right associativity) : py_scope.

Definition is_ok {A : Type} (r : result A) : bool :=
  match r with Ok _ => true | Raise _ => false end.

(** ** Python: strings *)

Definition is_digit (c : ascii) : bool :=
  let n := nat_of_ascii c in (48 <=? n)%nat && (n <=? 57)%nat.

(** [str.lower] on the ASCII letters; bytes of non-ASCII characters are
    left as they are (no such character lower-cases to an ASCII letter
    of the word compared against in [build_and_send]). *)
Definition lower_ascii (c : ascii) : ascii :=
  let n := nat_of_ascii c in
  if (65 <=? n)%nat && (n <=? 90)%nat then ascii_of_nat (n + 32) else c.

Fixpoint lower (s : string) : string :=
  match s with
  | EmptyString => EmptyString
  | String c s' => String (lower_ascii c) (lower s')
  end.

Fixpoint startswith (s p : string) : bool :=
  match p, s with
  | EmptyString, _ => true
  | String _ _, EmptyString => false
  | String b p', String a s' => Ascii.eqb a b && startswith s' p'
  end.

Fixpoint rev_string (s : string) : string :=
  match s with
  | EmptyString => EmptyString
  | String c s' => rev_string s' ++ String c EmptyString
  end.

Definition endswith (s p : string) : bool :=
  startswith (rev_string s) (rev_string p).

(** [p in s] for strings. *)
Fixpoint contains (s p : string) : bool :=
  startswith s p ||
  match s with
  | EmptyString => false
  | String _ s' => contains s' p
  end.

(** [str(n)] for an [int], and the decimal digits of a natural number. *)
Definition str_N (n : N) : string := NilZero.string_of_uint (N.to_uint n).

Definition str_int (z : Z) : string :=
  match z with
  | Zneg p => "-" ++ str_N (Npos p)
  | _ => str_N (Z.to_N z)
  end.

(** A field of [strftime] padded with a zero to two digits (%m, %d, %H, %M). *)
Definition pad2 (n : N) : string :=
  if (n <? 10)%N then "0" ++ str_N n else str_N n.

(** [os.path.join] of [posixpath], for two components. *)
Definition path_join (a b : string) : string :=
  if startswith b "/" then b
  else if String.eqb a "" || endswith a "/" then a ++ b
  else a ++ "/" ++ b.

(** [os.path.basename]: what follows the last slash. *)
Fixpoint basename_aux (s acc : string) : string :=
  match s with
  | EmptyString => acc
  | String c s' =>
      if Ascii.eqb c "/" then basename_aux s' EmptyString
      else basename_aux s' (acc ++ String c EmptyString)
  end.

Definition basename (p : string) : string := basename_aux p EmptyString.

(** ** Python: [float] and the format specification [,.2f] *)

Abbreviation float64 := spec_float.

(** The binary64 value nearest to [m * 2^e]. *)
Definition b64 (m e : Z) : float64 := binary_normalize 53 1024 m e false.

Definition isnan (x : float64) : bool :=
  match x with S754_nan => true | _ => false end.

Definition isfinite (x : float64) : bool :=
  match x with S754_zero _ | S754_finite _ _ _ => true | _ => false end.

(** [m * 2^e * 100] rounded to the nearest integer, ties to even: the
    number of hundredths the correctly rounded conversion prints. *)
Definition hundredths (m : positive) (e : Z) : Z :=
  if 0 <=? e then Zpos m * 2 ^ e * 100
  else
    let d := 2 ^ (- e) in
    let n := Zpos m * 100 in
    let q := n / d in
    let r := n mod d in
    if 2 * r <? d then q
    else if d <? 2 * r then q + 1
    else if Z.even q then q else q + 1.

(** Digits least significant first, a comma after every third one that is
    followed by more digits. *)
Fixpoint commas_rev (ds : list ascii) : list ascii :=
  match ds with
  | a :: b :: c :: ((_ :: _) as rest) =>
      a :: b :: c :: ","%char :: commas_rev rest
  | _ => ds
  end.

(** The thousands grouping of the [,] option, on a string of digits. *)
Definition group_thousands (digits : string) : string :=
  string_of_list_ascii
    (List.rev (commas_rev (List.rev (list_ascii_of_string digits)))).

(** [format(abs(x), ',.2f')] for [h] hundredths. *)
Definition format_hundredths (h : Z) : string :=
  let frac := Z.to_N (h mod 100) in
  group_thousands (str_N (Z.to_N (h / 100))) ++ "." ++ pad2 frac.

(** [format(x, ',.2f')]. *)
Definition format_2f (x : float64) : string :=
  match x with
  | S754_nan => "nan"
  | S754_infinity s => if s then "-inf" else "inf"
  | S754_zero s => (if s then "-" else "") ++ format_hundredths 0
  | S754_finite s m e =>
      (if s then "-" else "") ++ format_hundredths (hundredths m e)
  end.

(** The f-string [f"${x:,.2f}"] of [render_html]. *)
Definition format_currency (x : float64) : string := "$" ++ format_2f x.

(** ** Python: [datetime] and [strftime] *)

Record datetime : Type := mk_datetime {
  year : N; month : N; day : N; hour : N; minute : N }.

(** [strftime("%Y-%m-%d")]. *)
Definition strftime_date (t : datetime) : string :=
  str_N (year t) ++ "-" ++ pad2 (month t) ++ "-" ++ pad2 (day t).

(** [strftime("%Y-%m-%d %H:%M")]. *)
Definition strftime_minute (t : datetime) : string :=
  strftime_date t ++ " " ++ pad2 (hour t) ++ ":" ++ pad2 (minute t).

(** ** pandas: the data frame of the sales dataset

    A frame is held by column, as pandas holds it. The three columns the
    program reads are typed as [read_csv] infers them for a dataset of the
    documented shape: [date] parsed to timestamps, [orders] as [int64],
    [revenue] as [float64]. A column the file does not have is [None]. *)

Record DataFrame : Type := mk_DataFrame {
  col_date : option (list datetime);
  col_orders : option (list Z);
  col_revenue : option (list float64) }.

(** One row of a frame, as [.iloc[0]] returns it. *)
Record Row : Type := mk_Row {
  row_date : option datetime;
  row_orders : option Z;
  row_revenue : option float64 }.

(** A record of the Table: one dated sales observation. *)
Record SalesRecord : Type := mk_Record {
  date : datetime; orders : Z; revenue : float64 }.

Definition from_records (tbl : list SalesRecord) : DataFrame :=
  {| col_date := Some (map date tbl);
     col_orders := Some (map orders tbl);
     col_revenue := Some (map revenue tbl) |}.

Definition row_of_record (r : SalesRecord) : Row :=
  {| row_date := Some (date r);
     row_orders := Some (orders r);
     row_revenue := Some (revenue r) |}.

Definition has_column (df : DataFrame) (name : string) : bool :=
  if String.eqb name "date" then bool_decide (is_Some (col_date df))
  else if String.eqb name "orders" then bool_decide (is_Some (col_orders df))
  else if String.eqb name "revenue" then bool_decide (is_Some (col_revenue df))
  else false.

(** [len(df)]. *)
Definition nrows (df : DataFrame) : nat :=
  match col_date df, col_orders df, col_revenue df with
  | Some c, _, _ => length c
  | None, Some c, _ => length c
  | None, None, Some c => length c
  | None, None, None => 0%nat
  end.

(** [df[name]]: a missing column raises [KeyError]. *)
Definition getitem {A : Type} (name : string) (col : option A) : result A :=
  match col with
  | Some c => Ok c
  | None => Raise (KeyError name)
  end.

(** The signed 64-bit value an [int64] operation keeps. *)
Definition wrap64 (z : Z) : Z := (z + 2 ^ 63) mod 2 ^ 64 - 2 ^ 63.

(** [Series.sum()] of an [int64] column: the accumulator is an [int64]. *)
Definition sum_int64 (xs : list Z) : Z :=
  fold_left (fun acc x => wrap64 (acc + x)) xs 0.

(** [x[indexer]] on one column; an index out of range raises. *)
Fixpoint take_list {A : Type} (indexer : list nat) (xs : list A)
  : result (list A) :=
  match indexer with
  | [] => Ok []
  | i :: rest =>
      match nth_error xs i with
      | None => Raise IndexError
      | Some x =>
          match take_list rest xs with
          | Ok ys => Ok (x :: ys)
          | Raise e => Raise e
          end
      end
  end.

Definition take_column {A : Type} (indexer : list nat) (col : option (list A))
  : result (option (list A)) :=
  match col with
  | None => Ok None
  | Some xs =>
      match take_list indexer xs with
      | Ok ys => Ok (Some ys)
      | Raise e => Raise e
      end
  end.

(** [df.take(indexer)]. *)
Definition take (indexer : list nat) (df : DataFrame) : result DataFrame :=
  (d <- take_column indexer (col_date df) ;;
   o <- take_column indexer (col_orders df) ;;
   r <- take_column indexer (col_revenue df) ;;
   Ok {| col_date := d; col_orders := o; col_revenue := r |})%py.

(** [df.iloc[0]]: the first row, [IndexError] on a frame without rows. *)
Definition iloc0 (df : DataFrame) : result Row :=
  match nrows df with
  | O => Raise IndexError
  | S _ =>
      Ok {| row_date := col_date df ≫= head;
            row_orders := col_orders df ≫= head;
            row_revenue := col_revenue df ≫= head |}
  end.

(** The order [sort_values(ascending=False)] puts keys in: [x] may stand
    before [y] when [y] is missing (NaN goes last) or [y <= x]. *)
Definition before (x y : float64) : bool :=
  if isnan y then true
  else if isnan x then false
  else SFleb y x.

(** ** Jinja2: autoescape selection and rendering *)

(** [markupsafe.escape] on one character. *)
Definition escape_char (c : ascii) : string :=
  if Ascii.eqb c "&" then "&amp;"
  else if Ascii.eqb c "<" then "&lt;"
  else if Ascii.eqb c ">" then "&gt;"
  else if Ascii.eqb c "'" then "&#39;"
  else if (nat_of_ascii c =? 34)%nat then "&#34;"
  else String c EmptyString.

Fixpoint escape (s : string) : string :=
  match s with
  | EmptyString => EmptyString
  | String c s' => escape_char c ++ escape s'
  end.

(** [x.lstrip('.')]. *)
Fixpoint lstrip_dot (s : string) : string :=
  match s with
  | String c s' => if Ascii.eqb c "." then lstrip_dot s' else s
  | EmptyString => EmptyString
  end.

(** [jinja2.select_autoescape]: the function it returns, applied to the
    name of the template being loaded. *)
Definition select_autoescape (enabled_extensions disabled_extensions : list string)
    (default_for_string default : bool) (template_name : option string) : bool :=
  let pattern x := "." ++ lower (lstrip_dot x) in
  match template_name with
  | None => default_for_string
  | Some name =>
      let name := lower name in
      if existsb (fun x => endswith name (pattern x)) enabled_extensions then true
      else if existsb (fun x => endswith name (pattern x)) disabled_extensions
      then false
      else default
  end.

(** [select_autoescape()] with its default arguments, as [render_html]
    calls it. *)
Definition select_autoescape_default : option string -> bool :=
  select_autoescape ["html"; "htm"; "xml"] [] true false.

(** The keyword arguments [render_html] passes to [template.render]. *)
Record BestDay : Type := mk_BestDay {
  best_date : string; best_revenue : string }.

Record RowEntry : Type := mk_RowEntry {
  entry_date : string; entry_orders : Z; entry_revenue : string }.

Record ReportContext : Type := mk_ReportContext {
  title : string;
  generated_at : string;
  chart_path : string;
  total_orders : Z;
  total_revenue : string;
  best_day : BestDay;
  rows : list RowEntry }.

(** Modelled from the spec: the template source [templates/report.html.j2]
    is not among the source files. Section 6 names the placeholders it
    exposes: [title], [generated_at], [chart_path], [total_orders],
    [total_revenue], [best_day.date], [best_day.revenue] and an iterable
    [rows] of [{date, orders, revenue}]. A template is literal text, [{{ }}]
    expressions over those placeholders, and a loop over [rows]. *)
Inductive placeholder : Type :=
  | PTitle | PGeneratedAt | PChartPath | PTotalOrders | PTotalRevenue
  | PBestDayDate | PBestDayRevenue.

Inductive row_placeholder : Type :=
  | PRowDate | PRowOrders | PRowRevenue.

Inductive row_node : Type :=
  | RowText (s : string)
  | RowOutput (p : row_placeholder)
  | RowOuter (p : placeholder).

Inductive node : Type :=
  | Text (s : string)
  | Output (p : placeholder)
  | ForRows (body : list row_node).

Definition template : Type := list node.

(** [str(value)] of a placeholder. *)
Definition eval_placeholder (ctx : ReportContext) (p : placeholder) : string :=
  match p with
  | PTitle => title ctx
  | PGeneratedAt => generated_at ctx
  | PChartPath => chart_path ctx
  | PTotalOrders => str_int (total_orders ctx)
  | PTotalRevenue => total_revenue ctx
  | PBestDayDate => best_date (best_day ctx)
  | PBestDayRevenue => best_revenue (best_day ctx)
  end.

Definition eval_row_placeholder (row : RowEntry) (p : row_placeholder) : string :=
  match p with
  | PRowDate => entry_date row
  | PRowOrders => str_int (entry_orders row)
  | PRowRevenue => entry_revenue row
  end.

(** What a [{{ }}] expression emits: the value, escaped when the
    environment autoescapes this template. *)
Definition emit (autoescape : bool) (s : string) : string :=
  if autoescape then escape s else s.

Definition render_row_node (autoescape : bool) (ctx : ReportContext)
    (row : RowEntry) (n : row_node) : string :=
  match n with
  | RowText s => s
  | RowOutput p => emit autoescape (eval_row_placeholder row p)
  | RowOuter p => emit autoescape (eval_placeholder ctx p)
  end.

Definition concat_map {A : Type} (f : A -> string) (l : list A) : string :=
  fold_right (fun a acc => f a ++ acc) "" l.

Definition render_row (autoescape : bool) (ctx : ReportContext)
    (body : list row_node) (row : RowEntry) : string :=
  concat_map (render_row_node autoescape ctx row) body.

Definition render_node (autoescape : bool) (ctx : ReportContext) (n : node)
  : string :=
  match n with
  | Text s => s
  | Output p => emit autoescape (eval_placeholder ctx p)
  | ForRows body => concat_map (render_row autoescape ctx body) (rows ctx)
  end.

(** [template.render] on the keyword arguments [ctx]. *)
Definition render (autoescape : bool) (tpl : template) (ctx : ReportContext)
  : string :=
  concat_map (render_node autoescape ctx) tpl.

(** ** The world a run acts on *)

(** One attachment: file name, bytes, MIME type. *)
Definition attachment : Type := string * string * string.

(** What [build_and_send] hands to [send_email]. *)
Record ArtifactBundle : Type := mk_ArtifactBundle {
  subject : string;
  html_body : string;
  attachments : list attachment }.

(** The process environment, the files under [BASE_DIR] and the clock.
    The dataset and the templates are kept as [read_csv] and the template
    loader parse them; every other file is its bytes. *)
Record World : Type := mk_World {
  environ : gmap string string;
  datasets : gmap string DataFrame;
  templates : gmap string template;
  files : gmap string string;
  now : datetime }.

Definition write_file (path content : string) (w : World) : World :=
  {| environ := environ w; datasets := datasets w; templates := templates w;
     files := <[path := content]> (files w); now := now w |}.

(** [open(path, "rb").read()]. *)
Definition read_file (path : string) (w : World) : result string :=
  match files w !! path with
  | Some content => Ok content
  | None => Raise (FileNotFoundError path)
  end.

(** [os.getenv(key, default)]. *)
Definition getenv (w : World) (key default : string) : string :=
  match environ w !! key with
  | Some v => v
  | None => default
  end.

(** The libraries and collaborators below the program: the directory of
    the script, the index [sort_values] computes for a descending sort of
    a [float64] column with the default sort kind, the [float64] reduction
    of [Series.sum], the PNG matplotlib saves for a line plot of the two
    columns (empty and non-finite data are drawn as an empty or a broken
    line), the PDF reportlab saves for a title, a timestamp line and an
    image, and the mail transport. *)
Class Runtime : Type := mk_Runtime {
  BASE_DIR : string;
  nargsort_descending : list float64 -> list nat;
  sum_float64 : list float64 -> float64;
  savefig : list datetime -> list float64 -> string;
  canvas_save : string -> string -> string -> string;
  send_email : string -> string -> list attachment -> World -> result World }.

(** What the program relies on from [sort_values(ascending=False)]: the
    index is a rearrangement of the row positions, and the keys it selects
    come in descending order with the missing ones last. The default sort
    kind (quicksort) is not a stable one, so nothing is said about the
    order of rows with equal keys. *)
Definition descending_index (xs : list float64) (indexer : list nat) : Prop :=
  Permutation indexer (seq 0 (length xs)) /\
  StronglySorted
    (fun i j => before (nth i xs S754_nan) (nth j xs S754_nan) = true) indexer.

Class RuntimeOk (RT : Runtime) : Prop :=
  nargsort_descending_ok :
    forall xs, descending_index xs (nargsort_descending xs).

(** ** The functions of [main.py] *)

Record Metrics : Type := mk_Metrics {
  metrics_total_orders : Z;
  metrics_total_revenue : float64;
  metrics_best_row : Row }.

Section Pipeline.
Context {RT : Runtime}.

(** [pd.read_csv(path, parse_dates=...)]: the file has to exist and to
    have the columns named in [parse_dates]. *)
Definition read_csv (w : World) (path : string) (parse_dates : list string)
  : result DataFrame :=
  match datasets w !! path with
  | None => Raise (FileNotFoundError path)
  | Some df =>
      match find (fun c => negb (has_column df c)) parse_dates with
      | Some c =>
          Raise (ValueError
                   ("Missing column provided to 'parse_dates': '" ++ c ++ "'"))
      | None => Ok df
      end
  end.

Definition data_path : string :=
  path_join (path_join BASE_DIR "data") "sample_sales.csv".

Definition read_data (w : World) : result DataFrame :=
  read_csv w data_path ["date"].

Definition make_chart (df : DataFrame) (out_path : string) (w : World)
  : result World :=
  (x <- getitem "date" (col_date df) ;;
   y <- getitem "revenue" (col_revenue df) ;;
   Ok (write_file out_path (savefig x y) w))%py.

(** [df.sort_values("revenue", ascending=False)]. *)
Definition sort_values_revenue_descending (df : DataFrame) : result DataFrame :=
  (key <- getitem "revenue" (col_revenue df) ;;
   take (nargsort_descending key) df)%py.

(** Lines 50 to 52 of [render_html]: the totals and the best row. *)
Definition compute_metrics (df : DataFrame) : result Metrics :=
  (o <- getitem "orders" (col_orders df) ;;
   r <- getitem "revenue" (col_revenue df) ;;
   sorted <- sort_values_revenue_descending df ;;
   best_row <- iloc0 sorted ;;
   Ok {| metrics_total_orders := sum_int64 o;
         metrics_total_revenue := sum_float64 r;
         metrics_best_row := best_row |})%py.

(** The list comprehension over [zip(df["date"], df["orders"],
    df["revenue"])]. *)
Fixpoint row_entries (ds : list datetime) (os : list Z) (rs : list float64)
  : list RowEntry :=
  match ds, os, rs with
  | d :: ds', o :: os', r :: rs' =>
      {| entry_date := strftime_date d; entry_orders := o;
         entry_revenue := format_currency r |} :: row_entries ds' os' rs'
  | _, _, _ => []
  end.

Definition templates_dir : string := path_join BASE_DIR "templates".

(** [env.get_template(name)] with a [FileSystemLoader]. *)
Definition get_template (w : World) (name : string) : result template :=
  match templates w !! path_join templates_dir name with
  | Some tpl => Ok tpl
  | None => Raise (TemplateNotFound name)
  end.

(** The keyword arguments of the call to [template.render]. *)
Definition report_context (w : World) (df : DataFrame) (chart : string)
  : result ReportContext :=
  (m <- compute_metrics df ;;
   bd <- getitem "date" (row_date (metrics_best_row m)) ;;
   br <- getitem "revenue" (row_revenue (metrics_best_row m)) ;;
   ds <- getitem "date" (col_date df) ;;
   os <- getitem "orders" (col_orders df) ;;
   rs <- getitem "revenue" (col_revenue df) ;;
   Ok {| title := getenv w "REPORT_TITLE" "Sales Report";
         generated_at := strftime_minute (now w);
         chart_path := basename chart;
         total_orders := metrics_total_orders m;
         total_revenue := format_currency (metrics_total_revenue m);
         best_day := {| best_date := strftime_date bd;
                        best_revenue := format_currency br |};
         rows := row_entries ds os rs |})%py.

Definition render_html (w : World) (df : DataFrame) (chart : string)
  : result string :=
  (tpl <- get_template w "report.html.j2" ;;
   ctx <- report_context w df chart ;;
   Ok (render (select_autoescape_default (Some "report.html.j2")) tpl ctx))%py.

Definition export_pdf (chart pdf_path title_ : string) (w : World)
  : result World :=
  (img <- read_file chart w ;;
   Ok (write_file pdf_path
         (canvas_save title_ ("Generated at: " ++ strftime_minute (now w)) img)
         w))%py.

Definition enable_pdf (w : World) : bool :=
  String.eqb (lower (getenv w "ENABLE_PDF" "true")) "true".

Definition out_dir : string := path_join BASE_DIR "out".
Definition chart_file : string := path_join out_dir "revenue_chart.png".
Definition html_file : string := path_join out_dir "report.html".
Definition pdf_file : string := path_join out_dir "report.pdf".

(** [build_and_send] up to the call of [send_email]: the world it leaves
    and the bundle it has assembled. *)
Definition build_bundle (w : World) : result (World * ArtifactBundle) :=
  (df <- read_data w ;;
   w1 <- make_chart df chart_file w ;;
   html <- render_html w1 df chart_file ;;
   let w2 := write_file html_file html w1 in
   chart_bytes <- read_file chart_file w2 ;;
   let chart_att := ("revenue_chart.png", chart_bytes, "image/png") in
   let subject_ := getenv w2 "REPORT_TITLE" "Sales Report" in
   if enable_pdf w2 then
     w3 <- export_pdf chart_file pdf_file
             (getenv w2 "REPORT_TITLE" "Sales Report") w2 ;;
     pdf_bytes <- read_file pdf_file w3 ;;
     Ok (w3, {| subject := subject_; html_body := html;
                attachments :=
                  [chart_att] ++ [("report.pdf", pdf_bytes, "application/pdf")] |})
   else
     Ok (w2, {| subject := subject_; html_body := html;
                attachments := [chart_att] |}))%py.

Definition build_and_send (w : World) : result World :=
  (wb <- build_bundle w ;;
   send_email (subject (snd wb)) (html_body (snd wb)) (attachments (snd wb))
     (fst wb))%py.
End Pipeline.

(** ** The Metrics of the specification, in its own words *)

(** The record with maximum revenue, ties broken by first occurrence in
    table order. *)
Fixpoint best_record (tbl : list SalesRecord) : option SalesRecord :=
  match tbl with
  | [] => None
  | r :: rest =>
      match best_record rest with
      | None => Some r
      | Some b => if SFltb (revenue r) (revenue b) then Some b else Some r
      end
  end.

(** The sum of a field over all records. *)
Definition sum_Z (xs : list Z) : Z := fold_right Z.add 0 xs.

(** The syntax of a currency amount: a dollar sign, an optional minus sign,
    one to three digits, groups of a comma and three digits, a point and
    two digits. The integer part is read from its last character. *)
Fixpoint grouped_rev (s : list ascii) : bool :=
  match s with
  | [a] => is_digit a
  | [a; b] => is_digit a && is_digit b
  | [a; b; c] => is_digit a && is_digit b && is_digit c
  | a :: b :: c :: sep :: rest =>
      is_digit a && is_digit b && is_digit c && Ascii.eqb sep ","
      && grouped_rev rest
  | [] => false
  end.

Definition currency_syntax (s : string) : bool :=
  match list_ascii_of_string s with
  | dollar :: amount =>
      Ascii.eqb dollar "$" &&
      let magnitude :=
        match amount with
        | c :: rest => if Ascii.eqb c "-" then rest else amount
        | [] => amount
        end in
      match List.rev magnitude with
      | d2 :: d1 :: point :: int_part =>
          is_digit d2 && is_digit d1 && Ascii.eqb point "." && grouped_rev int_part
      | _ => false
      end
  | [] => false
  end.

(** ** A stable sort kind that meets the contract of [sort_values] *)

Definition enumerate (xs : list float64) : list (nat * float64) :=
  combine (seq 0 (length xs)) xs.

(** Insertion of a keyed position, in front of the first entry [goes_first]
    lets it pass. *)
Fixpoint insert_by (goes_first : float64 -> float64 -> bool)
    (p : nat * float64) (l : list (nat * float64)) : list (nat * float64) :=
  match l with
  | [] => [p]
  | q :: l' =>
      if goes_first (snd p) (snd q) then p :: l
      else q :: insert_by goes_first p l'
  end.

Definition isort_by (goes_first : float64 -> float64 -> bool)
    (l : list (nat * float64)) : list (nat * float64) :=
  fold_right (insert_by goes_first) [] l.

(** A stable kind: rows with equal keys keep their table order. *)
Definition stable_nargsort (xs : list float64) : list nat :=
  map fst (isort_by before (enumerate xs)).

(** A left-to-right [float64] sum that skips missing values. *)
Definition sequential_nansum (xs : list float64) : float64 :=
  fold_left (fun acc x => if isnan x then acc else SFadd 53 1024 acc x)
    xs (S754_zero false).

Definition stable_runtime : Runtime :=
  {| BASE_DIR := "/srv/report";
     nargsort_descending := stable_nargsort;
     sum_float64 := sequential_nansum;
     savefig := fun xs ys => "PNG" ++ concat_map format_2f ys;
     canvas_save := fun t stamp img => "PDF" ++ t ++ stamp ++ img;
     send_email := fun _ _ _ w => Ok w |}.

(** ** The sort kind [sort_values] runs by default

    [sort_values("revenue", ascending=False)] calls pandas' [nargsort] with
    [kind="quicksort"], and [nargsort] calls [argsort] of numpy on the
    keys that are numbers. numpy's quicksort kind is the introsort of
    [npysort/quicksort.cpp], in its indirect variant [aquicksort_]: median
    of three and partition while a range has more than [SMALL_QUICKSORT]
    positions beyond its first, insertion sort below that, [aheapsort_]
    once the depth limit is used up. (Builds of numpy that dispatch a
    vectorised kernel for the dtype run that kernel instead; it is not a
    stable kind either.)

    The index array [tosort] is a list of positions into the keys [v];
    pointers into it are positions [pl], [pr], [pi], [pj]. *)

Definition SMALL_QUICKSORT : nat := 16.

(** [npy::double_tag::less]: numbers by [<], missing values last. *)
Definition less (a b : float64) : bool :=
  SFltb a b || (isnan b && negb (isnan a)).

(** [npy_get_msb]: the position of the highest bit set. *)
Definition npy_get_msb (num : nat) : nat := Nat.log2 num.

Section Argsort.
Variable v : list float64.

(** [*p] and [v[*p]]. *)
Definition deref (tosort : list nat) (p : nat) : nat := nth p tosort 0%nat.

Definition key_at (tosort : list nat) (p : nat) : float64 :=
  nth (deref tosort p) v S754_nan.

(** [INTP_SWAP] of the entries at [p] and [q]. *)
Definition intp_swap (tosort : list nat) (p q : nat) : list nat :=
  <[q := deref tosort p]> (<[p := deref tosort q]> tosort).

(** [INTP_SWAP] of the entries at [p] and [q] when the key of the first
    is less than the key of the second. *)
Definition swap_if_less (tosort : list nat) (p q : nat) : list nat :=
  if less (key_at tosort p) (key_at tosort q) then intp_swap tosort p q
  else tosort.

(** [do ++pi while (less(v[*pi], vp))]. The pivot parked at [pr - 1] stops
    the scan, so it takes at most [room = pr - pi] steps. *)
Fixpoint scan_up (tosort : list nat) (vp : float64) (pi room : nat) : nat :=
  match room with
  | O => pi
  | S room' =>
      if less (key_at tosort (S pi)) vp
      then scan_up tosort vp (S pi) room'
      else S pi
  end.

(** [do --pj while (less(vp, v[*pj]))]. The key at [pl] is not above the
    pivot, so the scan takes at most [room = pj - pl] steps. *)
Fixpoint scan_down (tosort : list nat) (vp : float64) (pj room : nat) : nat :=
  match room with
  | O => pj
  | S room' =>
      if less vp (key_at tosort (Nat.pred pj))
      then scan_down tosort vp (Nat.pred pj) room'
      else Nat.pred pj
  end.

(** The [for (;;)] loop of the partition: scan from both ends, leave when
    the scans meet, swap otherwise. Each round brings [pi] and [pj]
    closer, so [pr - pl] rounds are enough. *)
Fixpoint partition_loop (rounds : nat) (tosort : list nat) (vp : float64)
    (pl pr pi pj : nat) : list nat * nat :=
  match rounds with
  | O => (tosort, pi)
  | S rounds' =>
      let pi := scan_up tosort vp pi (pr - pi) in
      let pj := scan_down tosort vp pj (pj - pl) in
      if (pj <=? pi)%nat then (tosort, pi)
      else partition_loop rounds' (intp_swap tosort pi pj) vp pl pr pi pj
  end.

(** One partition of the range [pl .. pr]: the median of three goes to
    [pr - 1] as the pivot, the range is split around it, and the pivot is
    put at its place [pi], which is returned. *)
Definition partition_range (tosort : list nat) (pl pr : nat) : list nat * nat :=
  let pm := (pl + Nat.div2 (pr - pl))%nat in
  let tosort := swap_if_less tosort pm pl in
  let tosort := swap_if_less tosort pr pm in
  let tosort := swap_if_less tosort pm pl in
  let vp := key_at tosort pm in
  let pj := (pr - 1)%nat in
  let tosort := intp_swap tosort pm pj in
  let '(tosort, pi) := partition_loop (pr - pl) tosort vp pl pr pl pj in
  (intp_swap tosort pi (pr - 1), pi).

(** [while (pj > pl && less(vp, v[*pk])) *pj-- = *pk--], with
    [pk = pj - 1]. *)
Fixpoint shift_up (tosort : list nat) (vp : float64) (pl pj room : nat)
  : list nat * nat :=
  match room with
  | O => (tosort, pj)
  | S room' =>
      if (pl <? pj)%nat && less vp (key_at tosort (pj - 1))
      then shift_up (<[pj := deref tosort (pj - 1)]> tosort) vp pl (pj - 1) room'
      else (tosort, pj)
  end.

(** The insertion sort of the range [pl .. pr]. *)
Definition insertion_sort (tosort : list nat) (pl pr : nat) : list nat :=
  fold_left
    (fun tosort pi =>
       let vi := deref tosort pi in
       let vp := nth vi v S754_nan in
       let '(tosort, pj) := shift_up tosort vp pl pi (pi - pl) in
       <[pj := vi]> tosort)
    (seq (S pl) (pr - pl)) tosort.

(** [aheapsort_] on the [n] positions from [pl]: [a = tosort - 1], so
    [a[k]] is position [pl + k - 1]. *)
Definition heap_pos (pl k : nat) : nat := (pl + k - 1)%nat.

(** The sifting loop [for (i, j; j <= n;)] and the store [a[i] = tmp]
    that follows it. [j] at least doubles at each round. *)
Fixpoint sift (rounds : nat) (tosort : list nat) (pl n tmp i j : nat)
  : list nat :=
  match rounds with
  | O => <[heap_pos pl i := tmp]> tosort
  | S rounds' =>
      if (j <=? n)%nat then
        let j :=
          if (j <? n)%nat &&
             less (key_at tosort (heap_pos pl j)) (key_at tosort (heap_pos pl (j + 1)))
          then (j + 1)%nat else j in
        if less (nth tmp v S754_nan) (key_at tosort (heap_pos pl j))
        then sift rounds' (<[heap_pos pl i := deref tosort (heap_pos pl j)]> tosort)
                  pl n tmp j (j + j)
        else <[heap_pos pl i := tmp]> tosort
      else <[heap_pos pl i := tmp]> tosort
  end.

Definition aheapsort (tosort : list nat) (pl n : nat) : list nat :=
  let heap :=
    fold_left
      (fun tosort l =>
         sift n tosort pl n (deref tosort (heap_pos pl l)) l (l + l))
      (rev (seq 1 (Nat.div2 n))) tosort in
  fold_left
    (fun tosort n =>
       let tmp := deref tosort (heap_pos pl n) in
       let tosort := <[heap_pos pl n := deref tosort (heap_pos pl 1)]> tosort in
       sift n tosort pl (n - 1) tmp 1 2)
    (rev (seq 2 (n - 1))) heap.

(** A range waiting on the stack, with the depth left for it. *)
Definition frame : Type := nat * nat * Z.

(** [while ((pr - pl) > SMALL_QUICKSORT)]: partition, push the larger
    part, go on with the smaller. The range gets shorter at each round. *)
Fixpoint partition_while (rounds : nat) (tosort : list nat) (pl pr : nat)
    (cdepth : Z) (stack : list frame)
  : list nat * nat * nat * Z * list frame :=
  match rounds with
  | O => (tosort, pl, pr, cdepth, stack)
  | S rounds' =>
      if (SMALL_QUICKSORT <? pr - pl)%nat then
        let '(tosort, pi) := partition_range tosort pl pr in
        let cdepth := cdepth - 1 in
        if (pi - pl <? pr - pi)%nat
        then partition_while rounds' tosort pl (pi - 1) cdepth
               ((S pi, pr, cdepth) :: stack)
        else partition_while rounds' tosort (S pi) pr cdepth
               ((pl, (pi - 1)%nat, cdepth) :: stack)
      else (tosort, pl, pr, cdepth, stack)
  end.

(** The outer [while (1)]: one range at a time, until the stack is
    empty. [None] when [ranges] rounds did not empty it. *)
Fixpoint sort_ranges (ranges : nat) (tosort : list nat) (pl pr : nat)
    (cdepth : Z) (stack : list frame) : option (list nat) :=
  match ranges with
  | O => None
  | S ranges' =>
      let '(tosort, stack) :=
        if cdepth <? 0 then (aheapsort tosort pl (pr - pl + 1), stack)
        else
          let '(tosort, pl, pr, _, stack) :=
            partition_while (pr - pl) tosort pl pr cdepth stack in
          (insertion_sort tosort pl pr, stack) in
      match stack with
      | [] => Some tosort
      | (pl, pr, cdepth) :: stack => sort_ranges ranges' tosort pl pr cdepth stack
      end
  end.

(** [aquicksort_(v, tosort, num)] on the identity index. *)
Definition aquicksort : option (list nat) :=
  let num := length v in
  sort_ranges (S num) (seq 0 num) 0 (num - 1)
    (2 * Z.of_nat (npy_get_msb num)) [].
End Argsort.

(** [v.argsort(kind="quicksort")]. *)
Definition argsort (v : list float64) : option (list nat) := aquicksort v.

(** pandas' [nargsort(items, kind="quicksort", ascending=False,
    na_position="last")]: the keys that are numbers are reversed, sorted
    in ascending order and the result reversed again; the positions of
    the missing keys come last. *)
Definition nargsort (items : list float64) : option (list nat) :=
  let idx := seq 0 (length items) in
  let keyed := combine idx items in
  let non_nan := List.filter (fun p => negb (isnan (snd p))) keyed in
  let nan_idx := map fst (List.filter (fun p => isnan (snd p)) keyed) in
  let non_nans := rev (map snd non_nan) in
  let non_nan_idx := rev (map fst non_nan) in
  match argsort non_nans with
  | Some order =>
      Some (rev (map (fun k => nth k non_nan_idx 0%nat) order) ++ nan_idx)%list
  | None => None
  end.

(** The program with the sort kind it runs by default. *)
Definition quicksort_runtime : Runtime :=
  {| BASE_DIR := "/srv/report";
     nargsort_descending := fun xs => default [] (nargsort xs);
     sum_float64 := sequential_nansum;
     savefig := fun xs ys => "PNG" ++ concat_map format_2f ys;
     canvas_save := fun t stamp img => "PDF" ++ t ++ stamp ++ img;
     send_email := fun _ _ _ w => Ok w |}.

(** ** A sample run: the end-to-end scenario of the specification *)

Definition jan (d : N) : datetime :=
  {| year := 2024; month := 1; day := d; hour := 0; minute := 0 |}.

Definition sample_table : list SalesRecord :=
  [ {| date := jan 1; orders := 10; revenue := b64 100 0 |};
    {| date := jan 2; orders := 5; revenue := b64 250 0 |} ].

(** Two days with the same, maximal, revenue. *)
Definition tied_table : list SalesRecord :=
  [ {| date := jan 1; orders := 10; revenue := b64 250 0 |};
    {| date := jan 2; orders := 5; revenue := b64 250 0 |} ].

(** Eighteen days: the second and the tenth share the maximal revenue,
    the others have a lower one. *)
Definition tied_days : list SalesRecord :=
  map (fun d =>
         {| date := jan (N.of_nat (S d)); orders := 1;
            revenue := if (d =? 1)%nat || (d =? 9)%nat
                       then b64 250 0 else b64 100 0 |})
      (seq 0 18).

(** Modelled from the spec: a template that uses each placeholder of
    section 6 once, [{{ title }}] among them, and lists the rows. *)
Definition report_template : template :=
  [ Text "<h1>"; Output PTitle; Text "</h1><p>"; Output PGeneratedAt;
    Text "</p><img src='"; Output PChartPath; Text "'><p>";
    Output PTotalOrders; Text " orders, "; Output PTotalRevenue;
    Text "; best day "; Output PBestDayDate; Text " with ";
    Output PBestDayRevenue; Text "</p><table>";
    ForRows [ RowText "<tr><td>"; RowOutput PRowDate; RowText "</td><td>";
              RowOutput PRowOrders; RowText "</td><td>";
              RowOutput PRowRevenue; RowText "</td></tr>" ];
    Text "</table>" ].

Definition sample_world (env : list (string * string)) (df : DataFrame) : World :=
  {| environ := list_to_map env;
     datasets := {[ "/srv/report/data/sample_sales.csv" := df ]};
     templates := {[ "/srv/report/templates/report.html.j2" := report_template ]};
     files := ∅;
     now := {| year := 2024; month := 1; day := 3; hour := 9; minute := 0 |} |}.

(** ** Sample inputs of the claims *)

Definition no_revenue_frame : DataFrame :=
  {| col_date := Some (map date sample_table);
     col_orders := Some (map orders sample_table);
     col_revenue := None |}.



(** ** Auxiliary notions of the proofs *)

(** A key on which [SFcompare] is the lexicographic order. *)
Definition rank (x : float64) : Z * Z * Z :=
  match x with
  | S754_nan => (0, 0, 0)
  | S754_infinity s => if s then (-2, 0, 0) else (2, 0, 0)
  | S754_zero _ => (0, 0, 0)
  | S754_finite s m e => if s then (-1, - e, - Zpos m) else (1, e, Zpos m)
  end.

Definition lex_le (a b : Z * Z * Z) : Prop :=
  let '(a1, a2, a3) := a in
  let '(b1, b2, b3) := b in
  a1 < b1 \/ (a1 = b1 /\ (a2 < b2 \/ (a2 = b2 /\ a3 <= b3))).

(** The order of two keyed positions under [before]. *)
Definition key_before (p q : nat * float64) : Prop :=
  before (snd p) (snd q) = true.

Definition digit_or_comma (c : ascii) : bool := is_digit c || Ascii.eqb c ",".

(** Case analysis on the step a run is at: either it raised, or it went
    on with a value. *)
Ltac step H :=
  match type of H with
  | bind ?r _ = Ok _ =>
      let E := fresh "E" in
      destruct r eqn:E; [cbn [bind] in H|discriminate H]
  end.

(** ** The outcome of a run, spelled out *)

Section RunSummary.
Context {RT : Runtime}.

(** The world a run leaves and the bundle it assembles, in full. *)
Definition world_after (w : World) (chart html pdf : string) : World :=
  let w2 := write_file html_file html (write_file chart_file chart w) in
  if enable_pdf w then write_file pdf_file pdf w2 else w2.

Definition bundle_of (w : World) (chart html pdf : string) : ArtifactBundle :=
  {| subject := getenv w "REPORT_TITLE" "Sales Report";
     html_body := html;
     attachments :=
       if enable_pdf w
       then [("revenue_chart.png", chart, "image/png");
             ("report.pdf", pdf, "application/pdf")]
       else [("revenue_chart.png", chart, "image/png")] |}.

Definition pdf_of (w : World) (chart : string) : string :=
  canvas_save (getenv w "REPORT_TITLE" "Sales Report")
    ("Generated at: " ++ strftime_minute (now w)) chart.
End RunSummary.

(** ** Reading printed amounts and dates back *)

(** The number a character stands for as a decimal digit. *)
Definition digit_value (c : ascii) : N := N.of_nat (nat_of_ascii c - 48).

(** The number a sequence of decimal digits denotes, read after [acc]. *)
Definition digits_value_from (acc : N) (cs : list ascii) : N :=
  fold_left (fun a c => (10 * a + digit_value c)%N) cs acc.

Definition digits_value (cs : list ascii) : N := digits_value_from 0 cs.

(** Reading an amount back from a string in the currency syntax: whether
    it is signed, and the number of hundredths its digits denote. *)
Definition read_currency (s : string) : option (bool * N) :=
  if currency_syntax s then
    match list_ascii_of_string s with
    | _ :: c :: rest =>
        Some (Ascii.eqb c "-", digits_value (List.filter is_digit (c :: rest)))
    | _ => None
    end
  else None.

(** The sign and the number of hundredths [format_currency] prints. *)
Definition printed_amount (x : float64) : option (bool * N) :=
  match x with
  | S754_zero s => Some (s, 0%N)
  | S754_finite s m e => Some (s, Z.to_N (hundredths m e))
  | _ => None
  end.

(** A string of decimal digits. *)
Definition all_digits (s : string) : Prop :=
  Forall (fun c => is_digit c = true) (list_ascii_of_string s).

(** ** The mail settings of [send_email], and [load_env] *)

Module Mailer.

(** What [send_email] can raise before it builds the message: one of the
    exceptions above, or the [AttributeError] of a method call on [None]. *)
Inductive mail_exception : Type :=
  | Builtin (e : exception)
  | AttributeError (msg : string).

Inductive mail_result (A : Type) : Type :=
  | Done (a : A)
  | Failed (e : mail_exception).

Arguments Done {A} a.
Arguments Failed {A} e.

(** The characters [str.strip] removes, for ASCII text. *)
Definition is_space (c : ascii) : bool :=
  let n := nat_of_ascii c in
  ((9 <=? n)%nat && (n <=? 13)%nat) || ((28 <=? n)%nat && (n <=? 32)%nat).

Fixpoint lstrip (s : string) : string :=
  match s with
  | String c s' => if is_space c then lstrip s' else s
  | EmptyString => EmptyString
  end.

Fixpoint rstrip (s : string) : string :=
  match s with
  | EmptyString => EmptyString
  | String c s' =>
      match rstrip s' with
      | EmptyString => if is_space c then EmptyString else String c EmptyString
      | t => String c t
      end
  end.

(** [s.strip()]. *)
Definition strip (s : string) : string := rstrip (lstrip s).

(** [s.split(sep)] for a separator of one character. *)
Fixpoint split (sep : ascii) (s : string) : list string :=
  match s with
  | EmptyString => [EmptyString]
  | String c s' =>
      if Ascii.eqb c sep then EmptyString :: split sep s'
      else match split sep s' with
           | x :: xs => String c x :: xs
           | [] => [String c EmptyString]
           end
  end.

(** [sep.join(parts)]. *)
Fixpoint join (sep : string) (parts : list string) : string :=
  match parts with
  | [] => EmptyString
  | [a] => a
  | a :: rest => a ++ sep ++ join sep rest
  end.

Definition nonempty (s : string) : bool := negb (String.eqb s "").

(** The list comprehension that makes [mail_to]: the pieces between
    commas, stripped, without the empty ones. *)
Definition recipients (s : string) : list string :=
  List.filter nonempty (map strip (split "," s)).

(** The digits of an [int] literal: decimal digits, single underscores
    between them. *)
Fixpoint int_digits (s : string) (acc : N) (after_digit : bool) : option N :=
  match s with
  | EmptyString => if after_digit then Some acc else None
  | String c s' =>
      if is_digit c
      then int_digits s' (10 * acc + N.of_nat (nat_of_ascii c - 48)) true
      else if Ascii.eqb c "_" && after_digit then int_digits s' acc false
      else None
  end.

(** [int(s)] for a string of ASCII text: [None] stands for [ValueError]. *)
Definition int_of_str (s : string) : option Z :=
  match strip s with
  | String c r =>
      if Ascii.eqb c "-" then option_map (fun n => - Z.of_N n) (int_digits r 0 false)
      else if Ascii.eqb c "+" then option_map Z.of_N (int_digits r 0 false)
      else option_map Z.of_N (int_digits (String c r) 0 false)
  | EmptyString => None
  end.

(** The truth value of [os.getenv(key)]: set, and not the empty string. *)
Definition truthy (v : option string) : bool :=
  match v with
  | Some s => nonempty s
  | None => false
  end.

(** [strip] and [int_of_str] follow Python on ASCII text: beyond it Python
    also strips and reads the white space and the digits of other
    scripts. The properties of the settings are stated for such text. *)
Definition ascii_text (s : string) : bool :=
  forallb (fun c => (nat_of_ascii c <? 128)%nat) (list_ascii_of_string s).




(** What [send_email] works out from the environment before it builds
    and sends the message. *)
Record MailSettings : Type := mk_MailSettings {
  smtp_host : string;
  smtp_port : Z;
  smtp_user : string;
  smtp_pass : string;
  mail_from : string;
  mail_to : list string }.

Definition credentials_missing : string :=
  "SMTP credentials missing. Please set SMTP_HOST/SMTP_USER/SMTP_PASS in .env".

(** Lines 82 to 90 of [send_email], in the order they run. The message of
    the [ValueError] is cut before the literal it quotes. *)
Definition mail_settings (w : World) : mail_result MailSettings :=
  let host := environ w !! "SMTP_HOST" in
  match int_of_str (getenv w "SMTP_PORT" "587") with
  | None =>
      Failed (Builtin (ValueError "invalid literal for int() with base 10"))
  | Some port =>
      let user := environ w !! "SMTP_USER" in
      let pass := environ w !! "SMTP_PASS" in
      let sender :=
        match environ w !! "MAIL_FROM" with Some v => Some v | None => user end in
      match (match environ w !! "MAIL_TO" with Some v => Some v | None => user end) with
      | None => Failed (AttributeError "'NoneType' object has no attribute 'split'")
      | Some to_ =>
          if truthy host && truthy user && truthy pass
          then Done {| smtp_host := default "" host; smtp_port := port;
                       smtp_user := default "" user;
                       smtp_pass := default "" pass;
                       mail_from := default "" sender;
                       mail_to := recipients to_ |}
          else Failed (Builtin (RuntimeError credentials_missing))
      end
  end.

(** [send_email]: the settings, then the message and the SMTP exchange,
    which are the mail library's and the relay's. *)
Definition send_email
    (transmit : MailSettings -> string -> string -> list attachment ->
                World -> mail_result World)
    (subject html_body : string) (attachments : list attachment) (w : World)
  : mail_result World :=
  match mail_settings w with
  | Done settings => transmit settings subject html_body attachments w
  | Failed e => Failed e
  end.

End Mailer.

(** [load_env]: the variables of the [.env] file, when there is one, are
    added to the environment; a variable that is already set keeps its
    value. [dotenv] is what the file defines, [None] when it is absent. *)
Definition load_env (dotenv : option (gmap string string)) (w : World) : World :=
  match dotenv with
  | None => w
  | Some vars =>
      {| environ := environ w ∪ vars; datasets := datasets w;
         templates := templates w; files := files w; now := now w |}
  end.

(** A recipient as the program keeps it: not empty, without a comma and
    with nothing to strip. *)
Definition clean (a : string) : Prop :=
  a <> "" /\ Mailer.strip a = a /\ contains a "," = false.

(** A world with no file and no variable, and one with mail settings. *)
Definition bare_world : World :=
  {| environ := ∅; datasets := ∅; templates := ∅; files := ∅;
     now := {| year := 2024; month := 1; day := 3; hour := 9; minute := 0 |} |}.



(** * Properties *)

(** ** The order on [float64] keys *)

Lemma compare_cont_Eq_opp (m1 m2 : positive) :
  Pos.compare_cont Eq m2 m1 = CompOpp (Pos.compare_cont Eq m1 m2).
Proof. exact (Pos.compare_antisym m1 m2). Qed.

Lemma SFcompare_opp (x y : float64) (c : comparison) :
  SFcompare x y = Some c -> SFcompare y x = Some (CompOpp c).
Proof.
  destruct x as [sx|sx| |sx mx ex], y as [sy|sy| |sy my ey]; simpl;
    try discriminate;
    try (intros [= <-]; destruct sx; try destruct sy; reflexivity).
  intros [= <-]. f_equal.
  destruct sx, sy; try reflexivity;
    rewrite (Z.compare_antisym ex ey);
    destruct (ex ?= ey); simpl; try reflexivity;
    rewrite compare_cont_Eq_opp; try reflexivity.
Qed.

Lemma SFcompare_refl (x : float64) : isnan x = false -> SFcompare x x = Some Eq.
Proof.
  destruct x as [s|s| |s m e]; simpl; try discriminate; intros _;
    try (destruct s; reflexivity).
  f_equal. destruct s; rewrite Z.compare_refl;
  change (Pos.compare_cont Eq m m) with (Pos.compare m m);
  now rewrite Pos.compare_refl.
Qed.

Lemma SFleb_total (x y : float64) :
  isnan x = false -> isnan y = false -> SFleb x y = false -> SFleb y x = true.
Proof.
  intros Hx Hy. unfold SFleb.
  destruct (SFcompare x y) as [c|] eqn:E.
  - rewrite (SFcompare_opp _ _ _ E). now destruct c.
  - destruct x, y; simpl in *; discriminate.
Qed.


Lemma lex_le_trans a b c : lex_le a b -> lex_le b c -> lex_le a c.
Proof. destruct a as [[? ?] ?], b as [[? ?] ?], c as [[? ?] ?]. unfold lex_le. lia. Qed.

Lemma SFleb_rank (x y : float64) :
  isnan x = false -> isnan y = false ->
  SFleb x y = true <-> lex_le (rank x) (rank y).
Proof.
  intros Hx Hy. unfold SFleb.
  destruct x as [sx|sx| |sx mx ex], y as [sy|sy| |sy my ey]; try discriminate;
    simpl; try (destruct sx; try destruct sy; simpl; split; (lia || discriminate || reflexivity)).
  destruct sx, sy; simpl; try (split; (lia || discriminate || reflexivity));
    change (Pos.compare_cont Eq mx my) with (Pos.compare mx my);
    destruct (Z.compare_spec ex ey); destruct (Pos.compare_spec mx my);
    simpl; split; intros; try lia; try discriminate; try reflexivity.
Qed.

Lemma SFleb_trans (x y z : float64) :
  isnan x = false -> isnan y = false -> isnan z = false ->
  SFleb x y = true -> SFleb y z = true -> SFleb x z = true.
Proof.
  intros Hx Hy Hz. rewrite !SFleb_rank by assumption. apply lex_le_trans.
Qed.

Lemma before_refl (x : float64) : before x x = true.
Proof.
  unfold before. destruct (isnan x) eqn:E; [reflexivity|].
  unfold SFleb. now rewrite SFcompare_refl.
Qed.

Lemma before_total (x y : float64) : before x y = false -> before y x = true.
Proof.
  unfold before. destruct (isnan y) eqn:Ey; [discriminate|].
  destruct (isnan x) eqn:Ex; [reflexivity|]. now apply SFleb_total.
Qed.

Lemma before_trans (x y z : float64) :
  before x y = true -> before y z = true -> before x z = true.
Proof.
  unfold before.
  destruct (isnan z) eqn:Ez; [reflexivity|].
  destruct (isnan y) eqn:Ey; [discriminate|].
  destruct (isnan x) eqn:Ex; [discriminate|].
  intros Hyx Hzy. now apply (SFleb_trans z y x).
Qed.

(** ** Insertion sort on keyed positions *)


Section InsertionSort.
Variable goes_first : float64 -> float64 -> bool.
Hypothesis goes_first_before :
  forall x y, goes_first x y = true -> before x y = true.
Hypothesis stays_behind_before :
  forall x y, goes_first x y = false -> before y x = true.

Lemma insert_by_perm p l : Permutation (insert_by goes_first p l) (p :: l).
Proof.
  induction l as [|q l IH]; simpl; [reflexivity|].
  destruct (goes_first (snd p) (snd q)); [reflexivity|].
  rewrite IH. apply perm_swap.
Qed.

Lemma isort_by_perm l : Permutation (isort_by goes_first l) l.
Proof.
  induction l as [|p l IH]; simpl; [reflexivity|].
  rewrite insert_by_perm. now apply perm_skip.
Qed.

Lemma insert_by_sorted p l :
  StronglySorted key_before l ->
  StronglySorted key_before (insert_by goes_first p l).
Proof.
  induction 1 as [|q l Hl IH Hq]; simpl.
  - repeat constructor.
  - destruct (goes_first (snd p) (snd q)) eqn:E.
    + constructor; [now constructor|].
      apply goes_first_before in E. constructor; [exact E|].
      eapply Forall_impl; [exact Hq|].
      intros r Hr. unfold key_before in *. eapply before_trans; eassumption.
    + constructor; [exact IH|].
      eapply Permutation_Forall; [symmetry; apply insert_by_perm|].
      constructor; [|exact Hq]. now apply stays_behind_before.
Qed.

Lemma isort_by_sorted l : StronglySorted key_before (isort_by goes_first l).
Proof.
  induction l as [|p l IH]; simpl; [constructor|]. now apply insert_by_sorted.
Qed.
End InsertionSort.

Lemma enumerate_from_fst (xs : list float64) (k : nat) :
  map fst (combine (seq k (length xs)) xs) = seq k (length xs).
Proof.
  revert k. induction xs as [|x xs IH]; intros k; simpl; [reflexivity|].
  now rewrite IH.
Qed.

Lemma enumerate_from_nth (xs pre : list float64) :
  Forall (fun p => nth (fst p) (pre ++ xs)%list S754_nan = snd p)
    (combine (seq (length pre) (length xs)) xs).
Proof.
  revert pre. induction xs as [|x xs IH]; intros pre; simpl; constructor.
  - simpl. rewrite app_nth2 by lia. now rewrite Nat.sub_diag.
  - specialize (IH (pre ++ [x])%list). rewrite <- app_assoc in IH. simpl in IH.
    rewrite length_app in IH. simpl in IH.
    now replace (length pre + 1)%nat with (S (length pre)) in IH by lia.
Qed.

Lemma enumerate_nth (xs : list float64) :
  Forall (fun p => nth (fst p) xs S754_nan = snd p) (enumerate xs).
Proof. exact (enumerate_from_nth xs []). Qed.

Lemma key_sorted_index (xs : list float64) (l : list (nat * float64)) :
  Forall (fun p => nth (fst p) xs S754_nan = snd p) l ->
  StronglySorted key_before l ->
  StronglySorted
    (fun i j => before (nth i xs S754_nan) (nth j xs S754_nan) = true)
    (map fst l).
Proof.
  intros Hl Hs. induction Hs as [|p l Hs IH Hp]; simpl; [constructor|].
  inversion Hl as [|? ? Hp' Hl']; subst. constructor; [now apply IH|].
  rewrite Forall_map. rewrite List.Forall_forall in *. intros q Hq.
  rewrite Hp', (Hl' q Hq). now apply Hp.
Qed.

Lemma isort_descending_index (goes_first : float64 -> float64 -> bool) :
  (forall x y, goes_first x y = true -> before x y = true) ->
  (forall x y, goes_first x y = false -> before y x = true) ->
  forall xs,
    descending_index xs (map fst (isort_by goes_first (enumerate xs))).
Proof.
  intros H1 H2 xs. split.
  - rewrite <- (enumerate_from_fst xs 0). apply Permutation_map.
    apply isort_by_perm.
  - apply key_sorted_index.
    + eapply Permutation_Forall; [symmetry; apply isort_by_perm|].
      apply enumerate_nth.
    + now apply isort_by_sorted.
Qed.

Lemma stable_nargsort_ok xs : descending_index xs (stable_nargsort xs).
Proof.
  apply isort_descending_index.
  - auto.
  - apply before_total.
Qed.

Instance stable_runtime_ok : RuntimeOk stable_runtime.
Proof. exact stable_nargsort_ok. Qed.

(** ** Rows of a frame built from a table *)

Lemma take_list_map {A B : Type} (f : A -> B) (tbl : list A) (idx : list nat) :
  Forall (fun i => (i < length tbl)%nat) idx ->
  exists rs, Forall2 (fun i r => nth_error tbl i = Some r) idx rs /\
             take_list idx (map f tbl) = Ok (map f rs).
Proof.
  induction 1 as [|i idx Hi _ (rs & Hrs & IH)]; simpl.
  - exists []. split; [constructor|reflexivity].
  - apply nth_error_Some in Hi.
    destruct (nth_error tbl i) as [r|] eqn:E; [|congruence].
    exists (r :: rs). split; [now constructor|].
    rewrite nth_error_map, E. simpl. now rewrite IH.
Qed.

Lemma take_list_unique {A : Type} (tbl : list A) (idx : list nat) (rs rs' : list A) :
  Forall2 (fun i r => nth_error tbl i = Some r) idx rs ->
  Forall2 (fun i r => nth_error tbl i = Some r) idx rs' -> rs = rs'.
Proof.
  intros H. revert rs'. induction H as [|i r idx rs Hr _ IH]; intros rs' H';
    inversion H'; subst; [reflexivity|].
  f_equal; [congruence|now apply IH].
Qed.

Lemma take_from_records (tbl : list SalesRecord) (idx : list nat) :
  Forall (fun i => (i < length tbl)%nat) idx ->
  exists rs, Forall2 (fun i r => nth_error tbl i = Some r) idx rs /\
             take idx (from_records tbl) = Ok (from_records rs).
Proof.
  intros H.
  destruct (take_list_map date tbl idx H) as (r1 & H1 & E1).
  destruct (take_list_map orders tbl idx H) as (r2 & H2 & E2).
  destruct (take_list_map revenue tbl idx H) as (r3 & H3 & E3).
  assert (r2 = r1) by (eapply take_list_unique; eassumption).
  assert (r3 = r1) by (eapply take_list_unique; eassumption).
  subst. exists r1. split; [assumption|].
  unfold take, from_records. simpl. rewrite E1, E2, E3. reflexivity.
Qed.

Lemma iloc0_from_records (r : SalesRecord) (rs : list SalesRecord) :
  iloc0 (from_records (r :: rs)) = Ok (row_of_record r).
Proof. reflexivity. Qed.

Lemma descending_index_in_range (xs : list float64) (idx : list nat) :
  descending_index xs idx -> Forall (fun i => (i < length xs)%nat) idx.
Proof.
  intros [Hp _]. eapply Permutation_Forall; [symmetry; exact Hp|].
  apply List.Forall_forall. intros i Hi. apply in_seq in Hi. lia.
Qed.

Lemma descending_index_head (xs : list float64) (i : nat) (idx : list nat) :
  descending_index xs (i :: idx) ->
  forall j, (j < length xs)%nat ->
            before (nth i xs S754_nan) (nth j xs S754_nan) = true.
Proof.
  intros [Hp Hs] j Hj.
  assert (Hin : In j (i :: idx)).
  { eapply Permutation_in; [symmetry; exact Hp|]. apply in_seq. lia. }
  inversion Hs as [|? ? _ Hall]; subst.
  destruct Hin as [<-|Hin]; [apply before_refl|].
  rewrite List.Forall_forall in Hall. now apply Hall.
Qed.

Lemma descending_index_nonempty (xs : list float64) (idx : list nat) :
  descending_index xs idx -> xs <> [] -> idx <> [].
Proof.
  intros [Hp _] Hne ->. apply Permutation_nil in Hp.
  destruct xs; [congruence|discriminate].
Qed.

Lemma before_spelled_out (x y : float64) :
  before x y = true ->
  isnan y = false -> isnan x = false /\ SFleb y x = true.
Proof.
  unfold before. intros H Hy. rewrite Hy in H.
  destruct (isnan x); [discriminate|]. now split.
Qed.

Section BestRow.
Context {RT : Runtime} {RTok : RuntimeOk RT}.

Lemma best_row_from_records (tbl : list SalesRecord) :
  tbl <> [] ->
  exists i r m,
    compute_metrics (from_records tbl) = Ok m /\
    metrics_total_orders m = sum_int64 (map orders tbl) /\
    metrics_total_revenue m = sum_float64 (map revenue tbl) /\
    metrics_best_row m = row_of_record r /\
    nth_error tbl i = Some r /\
    hd_error (nargsort_descending (map revenue tbl)) = Some i /\
    forall r', In r' tbl -> before (revenue r) (revenue r') = true.
Proof.
  intros Hne. unfold compute_metrics, sort_values_revenue_descending. simpl.
  pose proof (nargsort_descending_ok (map revenue tbl)) as Hd.
  pose proof (descending_index_in_range _ _ Hd) as Hr.
  rewrite length_map in Hr.
  destruct (take_from_records tbl _ Hr) as (rs & Hrs & ->). simpl.
  destruct (nargsort_descending (map revenue tbl)) as [|i idx] eqn:E.
  { exfalso. eapply descending_index_nonempty; [exact Hd| |reflexivity].
    destruct tbl; [congruence|discriminate]. }
  inversion Hrs as [|? r ? rs' Hi Hrs']; subst.
  rewrite iloc0_from_records. simpl.
  exists i, r, {| metrics_total_orders := sum_int64 (map orders tbl);
                  metrics_total_revenue := sum_float64 (map revenue tbl);
                  metrics_best_row := row_of_record r |}.
  repeat split; try assumption.
  intros r' Hin. apply In_nth_error in Hin as [j Hj].
  assert (Hlt : (j < length (map revenue tbl))%nat).
  { rewrite length_map. apply nth_error_Some. congruence. }
  pose proof (descending_index_head _ _ _ Hd j Hlt) as Hb.
  assert (Hi' : nth_error (map revenue tbl) i = Some (revenue r))
    by (now rewrite nth_error_map, Hi).
  assert (Hj' : nth_error (map revenue tbl) j = Some (revenue r'))
    by (now rewrite nth_error_map, Hj).
  now rewrite (nth_error_nth _ _ _ Hi'), (nth_error_nth _ _ _ Hj') in Hb.
Qed.
End BestRow.

(** ** Decimal digits and the currency format *)


Lemma list_ascii_of_string_app (s t : string) :
  list_ascii_of_string (s ++ t) =
  (list_ascii_of_string s ++ list_ascii_of_string t)%list.
Proof. induction s as [|c s IH]; simpl; [reflexivity|now rewrite IH]. Qed.

Lemma string_of_uint_digits (d : Decimal.uint) :
  Forall (fun c => is_digit c = true)
    (list_ascii_of_string (NilEmpty.string_of_uint d)).
Proof. induction d; simpl; constructor; (reflexivity || assumption). Qed.

Lemma str_N_digits (n : N) :
  Forall (fun c => is_digit c = true) (list_ascii_of_string (str_N n)).
Proof.
  unfold str_N, NilZero.string_of_uint.
  destruct (N.to_uint n);
    first [apply string_of_uint_digits | repeat constructor].
Qed.

Lemma str_N_nonempty (n : N) : list_ascii_of_string (str_N n) <> [].
Proof.
  unfold str_N, NilZero.string_of_uint. destruct (N.to_uint n); discriminate.
Qed.

Lemma pad2_two_digits (n : N) :
  (n < 100)%N ->
  exists a b, pad2 n = String a (String b EmptyString) /\
              is_digit a = true /\ is_digit b = true.
Proof.
  intros H. rewrite <- (N2Nat.id n).
  assert (Hk : (N.to_nat n < 100)%nat) by lia.
  generalize dependent (N.to_nat n). clear. intros k Hk.
  do 100 (destruct k as [|k];
          [vm_compute; eexists _, _; repeat split; reflexivity|]).
  lia.
Qed.

Lemma commas_rev_more (a b c d : ascii) (rest : list ascii) :
  commas_rev (a :: b :: c :: d :: rest) =
  a :: b :: c :: ","%char :: commas_rev (d :: rest).
Proof. reflexivity. Qed.

Lemma grouped_rev_more (a b c : ascii) (r : list ascii) :
  grouped_rev (a :: b :: c :: ","%char :: r) =
  is_digit a && is_digit b && is_digit c && grouped_rev r.
Proof. cbn [grouped_rev]. now rewrite Ascii.eqb_refl, andb_true_r. Qed.

Lemma commas_rev_grouped (n : nat) (ds : list ascii) :
  (length ds <= n)%nat -> ds <> [] ->
  Forall (fun c => is_digit c = true) ds ->
  grouped_rev (commas_rev ds) = true.
Proof.
  revert ds. induction n as [|n IH]; intros ds Hlen Hne Hd.
  - destruct ds; [congruence|simpl in Hlen; lia].
  - destruct ds as [|a [|b [|c [|d rest]]]]; [congruence|..];
      repeat match goal with
             | H : Forall _ (_ :: _) |- _ => inversion H; clear H; subst
             end.
    1-3: cbn [commas_rev grouped_rev];
      repeat match goal with H : is_digit _ = true |- _ => rewrite H; clear H end;
      reflexivity.
    rewrite commas_rev_more, grouped_rev_more.
    rewrite IH; [|simpl in *; lia|discriminate|now constructor].
    repeat match goal with H : is_digit _ = true |- _ => rewrite H; clear H end.
    reflexivity.
Qed.

Lemma commas_rev_chars (n : nat) (ds : list ascii) :
  (length ds <= n)%nat ->
  Forall (fun c => is_digit c = true) ds ->
  Forall (fun c => digit_or_comma c = true) (commas_rev ds).
Proof.
  revert ds. induction n as [|n IH]; intros ds Hlen Hd.
  - destruct ds; [constructor|simpl in Hlen; lia].
  - assert (Hweak : forall l, Forall (fun c => is_digit c = true) l ->
                              Forall (fun c => digit_or_comma c = true) l).
    { intros l Hl. eapply Forall_impl; [exact Hl|].
      intros c Hc. unfold digit_or_comma. now rewrite Hc. }
    destruct ds as [|a [|b [|c [|d rest]]]]; try (now apply Hweak).
    rewrite commas_rev_more.
    repeat match goal with
           | H : Forall _ (_ :: _) |- _ => inversion H; clear H; subst
           end.
    repeat (constructor; [unfold digit_or_comma;
      first [reflexivity | match goal with H : _ = true |- _ => now rewrite H end]|]).
    apply IH; [simpl in *; lia|now constructor].
Qed.

Lemma commas_rev_nonempty (ds : list ascii) : ds <> [] -> commas_rev ds <> [].
Proof. destruct ds as [|a [|b [|c [|d rest]]]]; simpl; congruence. Qed.

(** The shape of [format_hundredths]: a grouped integer part, a point and
    two digits. *)
Lemma format_hundredths_shape (h : Z) :
  exists (ds : list ascii) (a b : ascii),
    ds <> [] /\ Forall (fun c => is_digit c = true) ds /\
    is_digit a = true /\ is_digit b = true /\
    list_ascii_of_string (format_hundredths h) =
    (List.rev (commas_rev ds) ++ ["."%char; a; b])%list.
Proof.
  unfold format_hundredths, group_thousands.
  destruct (pad2_two_digits (Z.to_N (h mod 100))) as (a & b & -> & Ha & Hb).
  { pose proof (Z.mod_pos_bound h 100). lia. }
  set (n := Z.to_N (h / 100)).
  exists (List.rev (list_ascii_of_string (str_N n))), a, b.
  repeat split; try assumption.
  - intros E. apply (f_equal (@List.rev ascii)) in E.
    rewrite rev_involutive in E. now apply str_N_nonempty in E.
  - apply Forall_rev. apply str_N_digits.
  - rewrite !list_ascii_of_string_app, list_ascii_of_string_of_list_ascii.
    reflexivity.
Qed.

Lemma currency_syntax_signed (sign : bool) (h : Z) :
  currency_syntax ("$" ++ (if sign then "-" else "") ++ format_hundredths h)
  = true.
Proof.
  destruct (format_hundredths_shape h) as (ds & a & b & Hne & Hd & Ha & Hb & E).
  unfold currency_syntax.
  rewrite !list_ascii_of_string_app, E. cbn [list_ascii_of_string app].
  change (Ascii.eqb "$" "$") with true. cbn [andb].
  pose proof (commas_rev_chars _ ds (Nat.le_refl _) Hd) as Hc.
  pose proof (commas_rev_nonempty ds Hne) as Hn.
  assert (Hrev : List.rev (List.rev (commas_rev ds) ++ ["."%char; a; b]) =
                 b :: a :: "."%char :: commas_rev ds).
  { rewrite rev_app_distr, rev_involutive. reflexivity. }
  assert (Hgoal : match List.rev (List.rev (commas_rev ds) ++ ["."%char; a; b]) with
                  | d2 :: d1 :: point :: int_part =>
                      is_digit d2 && is_digit d1 && Ascii.eqb point "." &&
                      grouped_rev int_part
                  | _ => false
                  end = true).
  { rewrite Hrev, Ha, Hb. cbn.
    now apply (commas_rev_grouped (length ds)). }
  destruct sign; cbn [app list_ascii_of_string].
  - change (Ascii.eqb "-" "-") with true. cbn iota. exact Hgoal.
  - destruct (List.rev (commas_rev ds)) as [|c rest] eqn:Er.
    + exfalso. apply Hn. apply (f_equal (@List.rev ascii)) in Er.
      now rewrite rev_involutive in Er.
    + cbn [app].
      assert (Hcc : digit_or_comma c = true).
      { apply Forall_rev in Hc. rewrite Er in Hc. now inversion Hc. }
      assert (Ascii.eqb c "-" = false) as ->.
      { destruct (Ascii.eqb_spec c "-") as [->|]; [discriminate Hcc|reflexivity]. }
      exact Hgoal.
Qed.

Lemma format_currency_syntax (x : float64) :
  isfinite x = true -> currency_syntax (format_currency x) = true.
Proof.
  destruct x as [s|s| |s m e]; try discriminate; intros _;
    unfold format_currency, format_2f; apply currency_syntax_signed.
Qed.

(** ** Sums of an [int64] column *)

Lemma wrap64_add_l (a b : Z) : wrap64 (wrap64 a + b) = wrap64 (a + b).
Proof.
  unfold wrap64. f_equal.
  replace ((a + 2 ^ 63) mod 2 ^ 64 - 2 ^ 63 + b + 2 ^ 63)
    with ((a + 2 ^ 63) mod 2 ^ 64 + b) by ring.
  rewrite Zplus_mod_idemp_l. f_equal. ring.
Qed.


Lemma wrap64_range (z : Z) : - 2 ^ 63 <= wrap64 z < 2 ^ 63.
Proof. unfold wrap64. pose proof (Z.mod_pos_bound (z + 2 ^ 63) (2 ^ 64)). lia. Qed.

Lemma fold_wrap64 (xs : list Z) (acc : Z) :
  fold_left (fun a x => wrap64 (a + x)) xs (wrap64 acc) = wrap64 (acc + sum_Z xs).
Proof.
  revert acc. induction xs as [|x xs IH]; intros acc; simpl.
  - now rewrite Z.add_0_r.
  - rewrite wrap64_add_l, IH. f_equal. ring.
Qed.

Lemma sum_int64_wraps (xs : list Z) : sum_int64 xs = wrap64 (sum_Z xs).
Proof. unfold sum_int64. change 0 with (wrap64 0) at 1. apply fold_wrap64. Qed.

(** ** Paths and files *)

Lemma append_inv_head (s t u : string) : s ++ t = s ++ u -> t = u.
Proof. induction s as [|c s IH]; simpl; [auto|]. intros [= H]. auto. Qed.

Lemma path_join_inj (d x y : string) :
  startswith x "/" = false -> startswith y "/" = false ->
  path_join d x = path_join d y -> x = y.
Proof.
  unfold path_join. intros -> ->.
  destruct (String.eqb d "" || endswith d "/"); intros H.
  - now apply append_inv_head in H.
  - apply append_inv_head in H. now injection H.
Qed.

Section Files.
Context {RT : Runtime}.

Lemma html_file_not_chart_file : html_file <> chart_file.
Proof.
  unfold html_file, chart_file. intros H.
  apply path_join_inj in H; [discriminate|reflexivity|reflexivity].
Qed.

Lemma read_after_write (p c : string) (w : World) :
  read_file p (write_file p c w) = Ok c.
Proof. unfold read_file, write_file. simpl. now rewrite lookup_insert_eq. Qed.

Lemma read_after_other_write (p q c : string) (w : World) :
  q <> p -> read_file p (write_file q c w) = read_file p w.
Proof.
  intros H. unfold read_file, write_file. simpl.
  now rewrite lookup_insert_ne.
Qed.

Lemma getenv_write_file (p c k d : string) (w : World) :
  getenv (write_file p c w) k d = getenv w k d.
Proof. reflexivity. Qed.

Lemma enable_pdf_write_file (p c : string) (w : World) :
  enable_pdf (write_file p c w) = enable_pdf w.
Proof. reflexivity. Qed.
End Files.


Section Bundle.
Context {RT : Runtime}.

Lemma make_chart_ok (df : DataFrame) (p : string) (w w1 : World) :
  make_chart df p w = Ok w1 ->
  exists ds rs, col_date df = Some ds /\ col_revenue df = Some rs /\
                w1 = write_file p (savefig ds rs) w.
Proof.
  unfold make_chart, getitem. intros H.
  destruct (col_date df) as [ds|]; [|discriminate].
  destruct (col_revenue df) as [rs|]; [|discriminate].
  cbn in H. injection H as <-. now exists ds, rs.
Qed.

Lemma build_bundle_attachments (w w' : World) (b : ArtifactBundle) :
  build_bundle w = Ok (w', b) ->
  exists df ds rs,
    read_data w = Ok df /\ col_date df = Some ds /\ col_revenue df = Some rs /\
    let chart := savefig ds rs in
    let pdf := canvas_save (getenv w "REPORT_TITLE" "Sales Report")
                 ("Generated at: " ++ strftime_minute (now w)) chart in
    subject b = getenv w "REPORT_TITLE" "Sales Report" /\
    render_html (write_file chart_file chart w) df chart_file = Ok (html_body b) /\
    attachments b =
      if enable_pdf w
      then [("revenue_chart.png", chart, "image/png");
            ("report.pdf", pdf, "application/pdf")]
      else [("revenue_chart.png", chart, "image/png")].
Proof.
  unfold build_bundle. intros H.
  step H. rename a into df. step H. rename a into w1.
  destruct (make_chart_ok _ _ _ _ E0) as (ds & rs & Hd & Hr & ->).
  step H. rename a into html.
  rewrite read_after_other_write, read_after_write in H
    by apply html_file_not_chart_file.
  cbn [bind] in H.
  rewrite !enable_pdf_write_file, !getenv_write_file in H.
  exists df, ds, rs. do 3 (split; [first [assumption|reflexivity]|]). cbn zeta.
  destruct (enable_pdf w).
  - unfold export_pdf in H.
    rewrite read_after_other_write, read_after_write in H
      by apply html_file_not_chart_file.
    cbn [bind] in H. rewrite read_after_write in H. cbn [bind] in H.
    injection H as <- <-. cbn. repeat split. exact E1.
  - injection H as <- <-. cbn. repeat split. exact E1.
Qed.
End Bundle.

(** ** A stable sort kind takes the first occurrence *)

Lemma before_not_less (x y : float64) :
  isnan x = false -> isnan y = false -> before x y = negb (SFltb x y).
Proof.
  intros Hx Hy. unfold before. rewrite Hx, Hy. unfold SFleb, SFltb.
  destruct (SFcompare x y) as [c|] eqn:E.
  - rewrite (SFcompare_opp _ _ _ E). now destruct c.
  - destruct x, y; simpl in *; discriminate.
Qed.

Lemma isort_by_head (goes_first : float64 -> float64 -> bool)
    (p : nat * float64) (l : list (nat * float64)) :
  hd_error (isort_by goes_first (p :: l)) =
  match hd_error (isort_by goes_first l) with
  | None => Some p
  | Some q => if goes_first (snd p) (snd q) then Some p else Some q
  end.
Proof.
  simpl. destruct (isort_by goes_first l) as [|q l']; simpl; [reflexivity|].
  now destruct (goes_first (snd p) (snd q)).
Qed.

Lemma stable_head_is_best_record (tbl : list SalesRecord) (k : nat) :
  Forall (fun r => isnan (revenue r) = false) tbl ->
  match hd_error (isort_by before
                    (combine (seq k (length tbl)) (map revenue tbl))) with
  | None => best_record tbl = None
  | Some (i, v) =>
      exists r, best_record tbl = Some r /\ (k <= i)%nat /\
                nth_error tbl (i - k) = Some r /\ v = revenue r
  end.
Proof.
  intros Hall. revert k. induction Hall as [|r rest Hr Hrest IH]; intros k.
  - reflexivity.
  - cbn [length seq map combine]. rewrite isort_by_head.
    specialize (IH (S k)). cbn [best_record].
    destruct (hd_error (isort_by before
                (combine (seq (S k) (length rest)) (map revenue rest))))
      as [[i v]|].
    + destruct IH as (b & -> & Hle & Hnth & ->). cbn [snd].
      assert (Hb : isnan (revenue b) = false).
      { apply nth_error_In in Hnth.
        rewrite List.Forall_forall in Hrest. now apply Hrest. }
      rewrite (before_not_less _ _ Hr Hb).
      destruct (SFltb (revenue r) (revenue b)); cbn [negb].
      * exists b. repeat split; [lia|].
        replace (i - k)%nat with (S (i - S k)) by lia. exact Hnth.
      * exists r. repeat split; [lia|]. now rewrite Nat.sub_diag.
    + rewrite IH. exists r. repeat split; [lia|]. now rewrite Nat.sub_diag.
Qed.

(** Under the stable sort kind, and for revenues that are numbers, the
    best row is the record with maximum revenue that comes first in the
    Table. *)
Lemma stable_kind_takes_first_occurrence (tbl : list SalesRecord) :
  tbl <> [] ->
  Forall (fun r => isnan (revenue r) = false) tbl ->
  exists r m,
    best_record tbl = Some r /\
    compute_metrics (RT := stable_runtime) (from_records tbl) = Ok m /\
    metrics_best_row m = row_of_record r.
Proof.
  intros Hne Hall.
  destruct (best_row_from_records (RT := stable_runtime) tbl Hne)
    as (i & r & m & Hm & _ & _ & Hb & Hi & Hhd & _).
  pose proof (stable_head_is_best_record tbl 0 Hall) as Hs.
  change (nargsort_descending (map revenue tbl))
    with (map fst (isort_by before (enumerate (map revenue tbl)))) in Hhd.
  unfold enumerate in Hhd. rewrite length_map in Hhd.
  destruct (isort_by before (combine (seq 0 (length tbl)) (map revenue tbl)))
    as [|[j v] l]; [discriminate|].
  simpl in Hhd, Hs. injection Hhd as ->.
  destruct Hs as (b & Hbest & _ & Hnth & _).
  rewrite Nat.sub_0_r in Hnth.
  exists r, m. repeat split; try assumption. congruence.
Qed.

Lemma stable_kind_on_tied_table :
  exists r m,
    nth_error tied_table 0 = Some r /\
    compute_metrics (RT := stable_runtime) (from_records tied_table) = Ok m /\
    metrics_best_row m = row_of_record r.
Proof.
  assert (Hne : tied_table <> []) by discriminate.
  assert (Hall : Forall (fun r => isnan (revenue r) = false) tied_table)
    by (repeat constructor).
  destruct (stable_kind_takes_first_occurrence tied_table Hne Hall)
    as (r & m & Hr & Hm & Hb).
  exists r, m. split; [exact Hr|]. now split.
Qed.

(** On two records the default kind only runs its insertion sort, which
    moves nothing when the keys are equal: the first record is taken. *)
Lemma quicksort_kind_on_tied_table :
  nargsort (map revenue tied_table) = Some [0; 1]%nat /\
  exists r m,
    nth_error tied_table 0 = Some r /\
    compute_metrics (RT := quicksort_runtime) (from_records tied_table) = Ok m /\
    metrics_best_row m = row_of_record r.
Proof.
  split; [vm_compute; reflexivity|].
  destruct (compute_metrics (RT := quicksort_runtime) (from_records tied_table))
    as [m|e] eqn:E; [|vm_compute in E; discriminate E].
  exists {| date := jan 1; orders := 10; revenue := b64 250 0 |}, m.
  vm_compute in E. injection E as <-.
  split; [reflexivity|]. split; [reflexivity|]. vm_compute. reflexivity.
Qed.


(** * The claims *)

(** ** C1: the best record *)

(** C1, as amended. For every non-empty Table, under any sort kind that
    meets the contract of [sort_values], the metrics step succeeds and its
    best row is a record of the Table whose revenue is maximal: no record
    with a revenue that is a number has a larger one. Which of several
    records with that revenue is taken is left to the sort kind; under the
    stable kind, and for revenues that are numbers, it is the one that
    comes first in the Table. *)
Theorem best_row_has_maximal_revenue
    (RT : Runtime) (RTok : RuntimeOk RT) (tbl : list SalesRecord) :
  tbl <> [] ->
  (exists i r m,
     compute_metrics (from_records tbl) = Ok m /\
     metrics_best_row m = row_of_record r /\
     nth_error tbl i = Some r /\
     forall r', In r' tbl -> isnan (revenue r') = false ->
                isnan (revenue r) = false /\
                SFleb (revenue r') (revenue r) = true) /\
  (Forall (fun r => isnan (revenue r) = false) tbl ->
   exists r m,
     best_record tbl = Some r /\
     compute_metrics (RT := stable_runtime) (from_records tbl) = Ok m /\
     metrics_best_row m = row_of_record r).
Proof.
  intros Hne. split; [|now apply stable_kind_takes_first_occurrence].
  destruct (best_row_from_records tbl Hne)
    as (i & r & m & Hm & _ & _ & Hb & Hi & _ & Hmax).
  exists i, r, m. repeat split; try assumption;
    now apply (before_spelled_out (revenue r) (revenue r')); [apply Hmax|].
Qed.

Lemma best_row_has_maximal_revenue_witness :
  RuntimeOk stable_runtime /\ tied_table <> [] /\
  Forall (fun r => isnan (revenue r) = false) tied_table /\
  (exists i r m,
     compute_metrics (RT := stable_runtime) (from_records tied_table) = Ok m /\
     metrics_best_row m = row_of_record r /\
     nth_error tied_table i = Some r /\
     forall r', In r' tied_table -> isnan (revenue r') = false ->
                isnan (revenue r) = false /\
                SFleb (revenue r') (revenue r) = true) /\
  (exists r m,
     best_record tied_table = Some r /\
     compute_metrics (RT := stable_runtime) (from_records tied_table) = Ok m /\
     metrics_best_row m = row_of_record r).
Proof.
  assert (Hne : tied_table <> []) by discriminate.
  assert (Hall : Forall (fun r => isnan (revenue r) = false) tied_table)
    by (repeat constructor).
  split; [exact stable_runtime_ok|]. split; [exact Hne|].
  split; [exact Hall|].
  destruct (best_row_has_maximal_revenue stable_runtime
              stable_runtime_ok tied_table Hne) as [Hmax Hfirst].
  split; [exact Hmax|exact (Hfirst Hall)].
Defined.

(** C1, as stated, fails under the default sort kind. On [tied_days] the
    records at index 1 and index 9 share the maximal revenue. [nargsort]
    reverses the keys, so they stand at positions 16 and 8 of the range
    [0 .. 17] the quicksort partitions. The median of three finds the key
    at [pr = 17] less than the key at [pm = 8] and swaps the two entries:
    the entry of index 9 now ends the range. The pivot is a lower key, so
    the other maximal entry goes to the right part as well, and the
    insertion sort of that part leaves the last entry where it is. The
    ascending order ends with index 9, the descending one begins with it:
    the best row is the record at index 9, not the first occurrence. *)
Lemma best_record_tie_counterexample :
  argsort (rev (map revenue tied_days))
  = Some [0; 15; 14; 13; 12; 11; 10; 9; 17; 7; 6; 5; 4; 3; 2; 1; 16; 8]%nat /\
  nargsort (map revenue tied_days)
  = Some [9; 1; 16; 15; 14; 13; 12; 11; 10; 0; 8; 7; 6; 5; 4; 3; 2; 17]%nat /\
  (exists r1 r9 m,
     nth_error tied_days 1 = Some r1 /\ nth_error tied_days 9 = Some r9 /\
     revenue r1 = revenue r9 /\
     best_record tied_days = Some r1 /\
     compute_metrics (RT := quicksort_runtime) (from_records tied_days) = Ok m /\
     metrics_best_row m = row_of_record r9 /\
     metrics_best_row m <> row_of_record r1).
Proof.
  split; [vm_compute; reflexivity|]. split; [vm_compute; reflexivity|].
  destruct (compute_metrics (RT := quicksort_runtime) (from_records tied_days))
    as [m|e] eqn:E; [|vm_compute in E; discriminate E].
  exists {| date := jan 2; orders := 1; revenue := b64 250 0 |},
         {| date := jan 10; orders := 1; revenue := b64 250 0 |}, m.
  vm_compute in E. injection E as <-.
  split; [vm_compute; reflexivity|]. split; [vm_compute; reflexivity|].
  split; [reflexivity|]. split; [vm_compute; reflexivity|].
  split; [reflexivity|]. split; [vm_compute; reflexivity|].
  vm_compute. discriminate.
Qed.

(** ** C3: the empty Table *)

(** C3, as amended. On the Table with zero records the metrics step raises
    [IndexError] (from [.iloc[0]]) whatever the sort kind does; it returns
    no Metrics, and [render_html] returns no document. *)
Theorem empty_table_raises_IndexError (RT : Runtime) :
  compute_metrics (from_records []) = Raise IndexError /\
  (forall m, compute_metrics (from_records []) <> Ok m) /\
  (forall w chart html, render_html w (from_records []) chart <> Ok html).
Proof.
  assert (H : compute_metrics (from_records []) = Raise IndexError).
  { unfold compute_metrics, sort_values_revenue_descending, take. simpl.
    destruct (nargsort_descending []) as [|i idx]; [reflexivity|].
    simpl. now destruct i. }
  split; [exact H|]. split; [intros m; rewrite H; discriminate|].
  intros w chart html. unfold render_html, report_context.
  destruct (get_template w "report.html.j2"); [|discriminate].
  simpl. rewrite H. discriminate.
Qed.

(** C3, as stated, fails: the exception raised on the empty Table is not
    an [EmptyDatasetError]. *)
Lemma empty_table_counterexample :
  ~ exists e,
      compute_metrics (RT := stable_runtime) (from_records []) = Raise e /\
      exception_name e = "EmptyDatasetError".
Proof. intros (e & H & Hn). vm_compute in H. injection H as <-. discriminate. Qed.

(** ** C4: a dataset without the revenue column *)

(** C4, as amended. A dataset file that has its [date] column and lacks
    the [revenue] column is loaded by [read_data] without an error. The run
    fails afterwards, in [make_chart], with [KeyError] on the column name,
    before any file is written, before the report is rendered and before
    the mail collaborator is called. *)
Theorem missing_revenue_fails_in_make_chart
    (RT : Runtime) (w : World) (df : DataFrame) :
  datasets w !! data_path = Some df ->
  has_column df "date" = true ->
  col_revenue df = None ->
  read_data w = Ok df /\
  make_chart df chart_file w = Raise (KeyError "revenue") /\
  build_bundle w = Raise (KeyError "revenue") /\
  build_and_send w = Raise (KeyError "revenue").
Proof.
  intros Hf Hd Hr.
  assert (Hread : read_data w = Ok df).
  { unfold read_data, read_csv. rewrite Hf. simpl. now rewrite Hd. }
  assert (Hchart : make_chart df chart_file w = Raise (KeyError "revenue")).
  { unfold make_chart. rewrite Hr.
    unfold has_column in Hd. simpl in Hd.
    destruct (col_date df); [reflexivity|].
    rewrite bool_decide_eq_true in Hd. now destruct Hd. }
  assert (Hb : build_bundle w = Raise (KeyError "revenue")).
  { unfold build_bundle. rewrite Hread. cbn [bind]. now rewrite Hchart. }
  unfold build_and_send. rewrite Hb. auto.
Qed.

Lemma missing_revenue_fails_in_make_chart_witness :
  let w := sample_world [] no_revenue_frame in
  datasets w !! data_path (RT := stable_runtime) = Some no_revenue_frame /\
  read_data (RT := stable_runtime) w = Ok no_revenue_frame /\
  build_and_send (RT := stable_runtime) w = Raise (KeyError "revenue").
Proof.
  intros w.
  assert (Hf : datasets w !! data_path (RT := stable_runtime)
               = Some no_revenue_frame) by (vm_compute; reflexivity).
  split; [exact Hf|].
  destruct (missing_revenue_fails_in_make_chart stable_runtime w
              no_revenue_frame Hf eq_refl eq_refl) as (H1 & _ & _ & H4).
  split; assumption.
Defined.

(** C4, as stated, fails: for a dataset file without the [revenue] column
    the loading step returns a frame and raises nothing, so it does not
    fail with [DataLoadError]. *)
Lemma missing_revenue_counterexample :
  col_revenue no_revenue_frame = None /\
  read_data (RT := stable_runtime) (sample_world [] no_revenue_frame)
  = Ok no_revenue_frame /\
  ~ exists e,
      read_data (RT := stable_runtime) (sample_world [] no_revenue_frame)
      = Raise e /\ exception_name e = "DataLoadError".
Proof.
  split; [reflexivity|]. split; [vm_compute; reflexivity|].
  intros (e & H & _). vm_compute in H. discriminate.
Qed.

(** ** C9: the chart of an empty or non-finite Table *)

(** C9, as amended. [make_chart] checks neither the number of records nor
    the revenue values: for every Table, the empty one and those with
    non-finite revenues included, it raises nothing and leaves at the
    output path the image the plotting library saves for the two columns. *)
Theorem make_chart_never_raises
    (RT : Runtime) (tbl : list SalesRecord) (out_path : string) (w : World) :
  make_chart (from_records tbl) out_path w
  = Ok (write_file out_path (savefig (map date tbl) (map revenue tbl)) w) /\
  read_file out_path
    (write_file out_path (savefig (map date tbl) (map revenue tbl)) w)
  = Ok (savefig (map date tbl) (map revenue tbl)).
Proof. split; [reflexivity|apply read_after_write]. Qed.

(** C9, as stated, fails: on the Table with zero records, and on a Table
    with an infinite and a missing revenue, the chart renderer returns
    normally. *)
Lemma make_chart_counterexample :
  let odd := [ {| date := jan 1; orders := 1; revenue := S754_infinity false |};
               {| date := jan 2; orders := 1; revenue := S754_nan |} ] in
  let w := sample_world [] (from_records []) in
  is_ok (make_chart (RT := stable_runtime) (from_records []) "chart.png" w)
  = true /\
  is_ok (make_chart (RT := stable_runtime) (from_records odd) "chart.png" w)
  = true /\
  ~ exists e,
      make_chart (RT := stable_runtime) (from_records []) "chart.png" w
      = Raise e /\ exception_name e = "RenderError".
Proof.
  intros odd w. split; [reflexivity|]. split; [reflexivity|].
  intros (e & H & _). discriminate H.
Qed.

(** ** C5: the attachments of the bundle *)

(** C5. Whenever a run assembles its bundle, the attachment list is the
    chart, named [revenue_chart.png] with type [image/png], followed, when
    PDF export is enabled, by the PDF made from that chart, named
    [report.pdf] with type [application/pdf]; it is the chart alone when
    PDF export is disabled. *)
Theorem attachments_in_order
    (RT : Runtime) (w w' : World) (b : ArtifactBundle) :
  build_bundle w = Ok (w', b) ->
  exists df ds rs,
    read_data w = Ok df /\ col_date df = Some ds /\ col_revenue df = Some rs /\
    let chart := savefig ds rs in
    let pdf := canvas_save (getenv w "REPORT_TITLE" "Sales Report")
                 ("Generated at: " ++ strftime_minute (now w)) chart in
    attachments b =
      if enable_pdf w
      then [("revenue_chart.png", chart, "image/png");
            ("report.pdf", pdf, "application/pdf")]
      else [("revenue_chart.png", chart, "image/png")].
Proof.
  intros H.
  destruct (build_bundle_attachments w w' b H)
    as (df & ds & rs & H1 & H2 & H3 & _ & _ & H4).
  now exists df, ds, rs.
Qed.

Lemma attachments_in_order_witness :
  let w := sample_world [] (from_records sample_table) in
  exists w' b,
    build_bundle (RT := stable_runtime) w = Ok (w', b) /\
    enable_pdf w = true /\
    map (fun a => (fst (fst a), snd a)) (attachments b)
    = [("revenue_chart.png", "image/png"); ("report.pdf", "application/pdf")].
Proof.
  intros w.
  destruct (build_bundle (RT := stable_runtime) w) as [[w' b]|e] eqn:E;
    [|vm_compute in E; discriminate E].
  exists w', b. split; [reflexivity|]. split; [reflexivity|].
  destruct (attachments_in_order stable_runtime w w' b E)
    as (df & ds & rs & _ & _ & _ & ->).
  reflexivity.
Defined.

(** ** C10: when PDF export is enabled *)



(** ** C6: the totals *)




(** ** C7: the currency format *)

(** C7. For every revenue value that is a finite number, the currency
    format is a dollar sign, an optional minus sign, an integer part in
    groups of three digits separated by commas, a point and exactly two
    digits. The value 1234.5 formats to [$1,234.50] and the value 0 to
    [$0.00]. *)
Theorem currency_format :
  (forall x : float64,
     isfinite x = true -> currency_syntax (format_currency x) = true) /\
  format_currency (b64 2469 (-1)) = "$1,234.50" /\
  format_currency (b64 0 0) = "$0.00".
Proof.
  split; [exact format_currency_syntax|]. split; reflexivity.
Qed.

Lemma currency_format_witness :
  isfinite (b64 2469 (-1)) = true /\
  currency_syntax (format_currency (b64 2469 (-1))) = true.
Proof.
  split; [reflexivity|].
  apply (proj1 currency_format). reflexivity.
Defined.

(** ** C8: the row listing *)



Section Report.
Context {RT : Runtime}.


Lemma report_context_ok {RTok : RuntimeOk RT} (w : World)
    (tbl : list SalesRecord) (chart : string) :
  tbl <> [] -> exists ctx, report_context w (from_records tbl) chart = Ok ctx.
Proof.
  intros Hne.
  destruct (best_row_from_records tbl Hne)
    as (i & r & m & Hm & _ & _ & Hb & _).
  unfold report_context. rewrite Hm. cbn [bind]. rewrite Hb. simpl. eauto.
Qed.

Lemma render_html_inv (w : World) (df : DataFrame) (chart html : string) :
  render_html w df chart = Ok html ->
  exists tpl ctx,
    get_template w "report.html.j2" = Ok tpl /\
    report_context w df chart = Ok ctx /\
    html = render (select_autoescape_default (Some "report.html.j2")) tpl ctx.
Proof.
  unfold render_html. intros H. step H. step H. injection H as <-.
  eexists _, _. repeat split; reflexivity.
Qed.
End Report.



(** ** C2: escaping *)

(** C2 fails on the code. The environment asks for autoescaping with the
    default extensions, which do not match the name [report.html.j2]:
    every report is rendered with autoescaping off, a [{{ title }}]
    expression emits the title as it is, and for the title [A & B] the
    report contains [A & B] and does not contain [A &amp; B]. Under a
    name ending in [.html] the same call escapes. *)
Theorem title_is_not_escaped :
  select_autoescape_default (Some "report.html.j2") = false /\
  (forall (RT : Runtime) w df chart html,
     render_html w df chart = Ok html ->
     exists tpl ctx,
       get_template w "report.html.j2" = Ok tpl /\
       html = render false tpl ctx) /\
  (forall ctx, render_node false ctx (Output PTitle) = title ctx) /\
  (let w := sample_world [("REPORT_TITLE", "A & B")] (from_records sample_table) in
   exists html,
     render_html (RT := stable_runtime) w (from_records sample_table) "chart.png"
     = Ok html /\
     contains html "A & B" = true /\
     contains html "A &amp; B" = false) /\
  select_autoescape_default (Some "report.html") = true /\
  emit true "A & B" = "A &amp; B".
Proof.
  split; [reflexivity|]. split.
  { intros RT w df chart html H.
    destruct (render_html_inv w df chart html H) as (tpl & ctx & Ht & _ & ->).
    now exists tpl, ctx. }
  split; [reflexivity|]. split.
  { eexists. split; [vm_compute; reflexivity|]. split; vm_compute; reflexivity. }
  split; reflexivity.
Qed.

(** * Further properties *)

(** ** Paths under the output directory *)

Lemma append_cons (c : ascii) (s t : string) :
  String c s ++ t = String c (s ++ t).
Proof. reflexivity. Qed.

Lemma append_empty_r (s : string) : s ++ "" = s.
Proof.
  induction s as [|c s IH]; [reflexivity|]. now rewrite append_cons, IH.
Qed.

Lemma append_assoc_string (s t u : string) : (s ++ t) ++ u = s ++ (t ++ u).
Proof.
  induction s as [|c s IH]; [reflexivity|]. now rewrite !append_cons, IH.
Qed.

Lemma basename_aux_app (s t acc : string) :
  basename_aux (s ++ t) acc = basename_aux t (basename_aux s acc).
Proof.
  revert acc. induction s as [|c s IH]; intros acc; [reflexivity|].
  rewrite append_cons. simpl. destruct (Ascii.eqb c "/"); apply IH.
Qed.

Lemma startswith_empty (s : string) : startswith s "" = true.
Proof. now destruct s. Qed.

Lemma contains_slash_cons (c : ascii) (f : string) :
  contains (String c f) "/" = Ascii.eqb c "/" || contains f "/".
Proof. simpl. now rewrite startswith_empty, andb_true_r. Qed.

Lemma basename_aux_no_slash (f acc : string) :
  contains f "/" = false -> basename_aux f acc = acc ++ f.
Proof.
  revert acc. induction f as [|c f IH]; intros acc H.
  - now rewrite append_empty_r.
  - rewrite contains_slash_cons in H. simpl.
    destruct (Ascii.eqb c "/"); [discriminate H|].
    simpl in H. rewrite (IH _ H). apply append_assoc_string.
Qed.

Lemma startswith_rev_slash (d : string) :
  startswith (rev_string d) "/" = true -> exists d', d = d' ++ "/".
Proof.
  induction d as [|c d IH]; [discriminate|].
  simpl. destruct (rev_string d) as [|a r] eqn:E.
  - destruct d as [|c' d'].
    + simpl. rewrite andb_true_r. intros H. apply Ascii.eqb_eq in H as ->.
      now exists "".
    + simpl in E. destruct (rev_string d'); discriminate.
  - rewrite append_cons. intros H.
    assert (H' : startswith (String a r) "/" = true).
    { simpl in H |- *. now rewrite startswith_empty in H |- *. }
    destruct (IH H') as [d' ->]. now exists (String c d').
Qed.

Lemma basename_of_joined (d f : string) :
  contains f "/" = false -> basename (path_join d f) = f.
Proof.
  intros Hf.
  assert (Hs : startswith f "/" = false).
  { destruct f as [|c f]; [reflexivity|].
    rewrite contains_slash_cons in Hf. simpl.
    destruct (Ascii.eqb c "/"); [discriminate Hf|reflexivity]. }
  unfold basename, path_join. rewrite Hs.
  destruct (String.eqb_spec d "") as [->|Hd]; cbn [orb].
  - now rewrite basename_aux_no_slash.
  - destruct (endswith d "/") eqn:E.
    + apply startswith_rev_slash in E as [d' ->].
      rewrite !basename_aux_app. simpl. now rewrite basename_aux_no_slash.
    + rewrite basename_aux_app.
      change ("/" ++ f) with (String "/" f). simpl.
      now rewrite basename_aux_no_slash.
Qed.

(** X7. The base name of a file joined to a directory is the file's name,
    whatever the directory: the report refers to the chart by its bare
    file name wherever the program is installed. *)
Theorem basename_path_join (d f : string) :
  contains f "/" = false -> basename (path_join d f) = f.
Proof. exact (basename_of_joined d f). Qed.

(** ** What a run does to the world *)

Section Run.
Context {RT : Runtime}.

Lemma pdf_file_not_chart_file : pdf_file <> chart_file.
Proof.
  unfold pdf_file, chart_file. intros H.
  apply path_join_inj in H; [discriminate|reflexivity|reflexivity].
Qed.

Lemma pdf_file_not_html_file : pdf_file <> html_file.
Proof.
  unfold pdf_file, html_file. intros H.
  apply path_join_inj in H; [discriminate|reflexivity|reflexivity].
Qed.

Lemma render_html_write_file (p c : string) (w : World) (df : DataFrame)
    (chart : string) :
  render_html (write_file p c w) df chart = render_html w df chart.
Proof. reflexivity. Qed.

Lemma render_html_needs_revenue (w : World) (df : DataFrame)
    (chart html : string) :
  render_html w df chart = Ok html -> is_Some (col_revenue df).
Proof.
  unfold render_html, report_context, compute_metrics, getitem. intros H.
  step H. destruct (col_orders df); [|discriminate H].
  destruct (col_revenue df); [eauto|discriminate H].
Qed.

Lemma read_data_has_date (w : World) (df : DataFrame) :
  read_data w = Ok df -> is_Some (col_date df).
Proof.
  unfold read_data, read_csv. intros H.
  destruct (datasets w !! data_path) as [df'|]; [|discriminate H].
  simpl in H. destruct (has_column df' "date") eqn:E; [|discriminate H].
  injection H as <-. unfold has_column in E. simpl in E.
  now apply bool_decide_eq_true in E.
Qed.


Lemma build_bundle_run (w : World) (df : DataFrame)
    (ds : list datetime) (rs : list float64) (html : string) :
  read_data w = Ok df -> col_date df = Some ds -> col_revenue df = Some rs ->
  render_html w df chart_file = Ok html ->
  build_bundle w
  = Ok (world_after w (savefig ds rs) html (pdf_of w (savefig ds rs)),
        bundle_of w (savefig ds rs) html (pdf_of w (savefig ds rs))).
Proof.
  intros Hread Hd Hr Hhtml. unfold build_bundle, world_after, bundle_of, pdf_of.
  rewrite Hread. cbn [bind]. unfold make_chart. rewrite Hd, Hr. cbn [bind getitem].
  rewrite render_html_write_file, Hhtml. cbn [bind].
  rewrite read_after_other_write, read_after_write
    by apply html_file_not_chart_file.
  cbn [bind]. rewrite !enable_pdf_write_file.
  destruct (enable_pdf w); [|reflexivity].
  unfold export_pdf.
  rewrite read_after_other_write, read_after_write
    by apply html_file_not_chart_file.
  cbn [bind]. rewrite read_after_write. reflexivity.
Qed.

Lemma build_bundle_inv (w w' : World) (b : ArtifactBundle) :
  build_bundle w = Ok (w', b) ->
  exists df ds rs html,
    read_data w = Ok df /\ col_date df = Some ds /\ col_revenue df = Some rs /\
    render_html w df chart_file = Ok html /\
    w' = world_after w (savefig ds rs) html (pdf_of w (savefig ds rs)) /\
    b = bundle_of w (savefig ds rs) html (pdf_of w (savefig ds rs)).
Proof.
  intros H. pose proof H as H0. unfold build_bundle in H.
  step H. rename a into df. step H. rename a into w1.
  destruct (make_chart_ok _ _ _ _ E0) as (ds & rs & Hd & Hr & ->).
  step H. rename a into html. rewrite render_html_write_file in E1.
  rewrite (build_bundle_run w df ds rs html E Hd Hr E1) in H0.
  injection H0 as <- <-. now exists df, ds, rs, html.
Qed.
End Run.

Section RunProperties.
Context {RT : Runtime}.

Lemma report_context_fields (w : World) (df : DataFrame) (chart : string)
    (ctx : ReportContext) :
  report_context w df chart = Ok ctx ->
  title ctx = getenv w "REPORT_TITLE" "Sales Report" /\
  generated_at ctx = strftime_minute (now w) /\
  chart_path ctx = basename chart.
Proof.
  unfold report_context. intros H.
  step H. step H. step H. step H. step H. step H.
  injection H as <-. now repeat split.
Qed.

(** X1. A run fails only where loading or rendering fails: once the
    dataset is read and the report rendered, the chart, the file reads and
    the PDF export go through. *)
Theorem run_fails_only_in_loading_or_rendering (w : World) :
  is_ok (build_bundle w) = true <->
  exists df html, read_data w = Ok df /\ render_html w df chart_file = Ok html.
Proof.
  split.
  - destruct (build_bundle w) as [[w' b]|e] eqn:E; [intros _|discriminate].
    destruct (build_bundle_inv w w' b E) as (df & ds & rs & html & H & _ & _ & Hh & _).
    now exists df, html.
  - intros (df & html & Hread & Hhtml).
    destruct (read_data_has_date w df Hread) as [ds Hd].
    destruct (render_html_needs_revenue w df _ html Hhtml) as [rs Hr].
    now rewrite (build_bundle_run w df ds rs html Hread Hd Hr Hhtml).
Qed.

(** X3. A run changes nothing but its three output files, and what it
    attaches is what it left on disk. *)
Theorem run_writes_only_its_outputs (w w' : World) (b : ArtifactBundle) :
  build_bundle w = Ok (w', b) ->
  environ w' = environ w /\ datasets w' = datasets w /\
  templates w' = templates w /\ now w' = now w /\
  (forall p, p <> chart_file -> p <> html_file -> p <> pdf_file ->
             files w' !! p = files w !! p) /\
  files w' !! html_file = Some (html_body b) /\
  (forall name bytes mime,
     In (name, bytes, mime) (attachments b) ->
     files w' !! path_join out_dir name = Some bytes) /\
  (enable_pdf w = false -> files w' !! pdf_file = files w !! pdf_file).
Proof.
  intros H.
  destruct (build_bundle_inv w w' b H)
    as (df & ds & rs & html & _ & _ & _ & _ & -> & ->).
  unfold world_after, bundle_of.
  pose proof html_file_not_chart_file as Hhc.
  pose proof pdf_file_not_chart_file as Hpc.
  pose proof pdf_file_not_html_file as Hph.
  destruct (enable_pdf w); cbn [environ datasets templates now files
                                write_file attachments html_body];
    (do 4 (split; [reflexivity|])); repeat split.
  - intros p H1 H2 H3. now rewrite !lookup_insert_ne by congruence.
  - rewrite lookup_insert_ne by congruence. apply lookup_insert_eq.
  - intros name bytes mime [[= <- <- <-]|[[= <- <- <-]|[]]].
    + change (path_join out_dir "revenue_chart.png") with chart_file.
      rewrite !lookup_insert_ne by congruence. apply lookup_insert_eq.
    + apply lookup_insert_eq.
  - discriminate.
  - intros p H1 H2 H3. now rewrite !lookup_insert_ne by congruence.
  - apply lookup_insert_eq.
  - intros name bytes mime [[= <- <- <-]|[]].
    change (path_join out_dir "revenue_chart.png") with chart_file.
    rewrite lookup_insert_ne by congruence. apply lookup_insert_eq.
  - intros _. now rewrite !lookup_insert_ne by congruence.
Qed.
End RunProperties.

Section MoreRunProperties.
Context {RT : Runtime}.

(** X2. With the dataset of a non-empty Table and the template in place, a
    run assembles its bundle and hands it to the mailer. *)
Theorem run_succeeds_on_nonempty_table {RTok : RuntimeOk RT}
    (w : World) (tbl : list SalesRecord) (tpl : template) :
  datasets w !! data_path = Some (from_records tbl) ->
  get_template w "report.html.j2" = Ok tpl ->
  tbl <> [] ->
  exists w' b,
    build_bundle w = Ok (w', b) /\
    length (attachments b) = (if enable_pdf w then 2 else 1)%nat /\
    build_and_send w
    = send_email (subject b) (html_body b) (attachments b) w'.
Proof.
  intros Hf Ht Hne.
  assert (Hread : read_data w = Ok (from_records tbl)).
  { unfold read_data, read_csv. now rewrite Hf. }
  destruct (report_context_ok w tbl chart_file Hne) as [ctx Hc].
  assert (Hh : render_html w (from_records tbl) chart_file
               = Ok (render (select_autoescape_default (Some "report.html.j2"))
                       tpl ctx)).
  { unfold render_html. now rewrite Ht, Hc. }
  pose proof (build_bundle_run w _ _ _ _ Hread eq_refl eq_refl Hh) as Hb.
  eexists _, _. split; [exact Hb|]. split.
  - unfold bundle_of. cbn [attachments]. now destruct (enable_pdf w).
  - unfold build_and_send. now rewrite Hb.
Qed.

(** X4. On an empty dataset the chart is written first; the run then fails
    in [render_html] and the mailer is not reached. *)
Theorem empty_dataset_fails_after_chart (w : World) (tpl : template) :
  datasets w !! data_path = Some (from_records []) ->
  get_template w "report.html.j2" = Ok tpl ->
  exists w1,
    make_chart (from_records []) chart_file w = Ok w1 /\
    files w1 !! chart_file = Some (savefig [] []) /\
    render_html w1 (from_records []) chart_file = Raise IndexError /\
    build_bundle w = Raise IndexError /\
    build_and_send w = Raise IndexError.
Proof.
  intros Hf Ht.
  assert (Hm : compute_metrics (from_records []) = Raise IndexError).
  { unfold compute_metrics, sort_values_revenue_descending, take. simpl.
    destruct (nargsort_descending []) as [|i idx]; [reflexivity|].
    simpl. now destruct i. }
  assert (Hh : forall w0, get_template w0 "report.html.j2" = Ok tpl ->
                render_html w0 (from_records []) chart_file = Raise IndexError).
  { intros w0 H0. unfold render_html, report_context. now rewrite H0, Hm. }
  assert (Hb : build_bundle w = Raise IndexError).
  { assert (Hread : read_data w = Ok (from_records [])).
    { unfold read_data, read_csv. now rewrite Hf. }
    assert (Hmc : make_chart (from_records []) chart_file w
                  = Ok (write_file chart_file (savefig [] []) w)) by reflexivity.
    unfold build_bundle. rewrite Hread. cbn [bind]. rewrite Hmc. cbn [bind].
    now rewrite (Hh (write_file chart_file (savefig [] []) w) Ht). }
  eexists. split; [reflexivity|]. split; [apply lookup_insert_eq|].
  split; [now apply Hh|]. split; [exact Hb|].
  unfold build_and_send. now rewrite Hb.
Qed.

(** X5. What [render_html] raises, in the order it looks things up: the
    template first, then the [orders] column, then the [revenue] column. *)
Theorem render_html_lookup_order (w : World) (df : DataFrame) (chart : string) :
  (templates w !! path_join templates_dir "report.html.j2" = None ->
   render_html w df chart = Raise (TemplateNotFound "report.html.j2")) /\
  (is_Some (templates w !! path_join templates_dir "report.html.j2") ->
   col_orders df = None ->
   render_html w df chart = Raise (KeyError "orders")) /\
  (is_Some (templates w !! path_join templates_dir "report.html.j2") ->
   is_Some (col_orders df) -> col_revenue df = None ->
   render_html w df chart = Raise (KeyError "revenue")).
Proof.
  unfold render_html, get_template, report_context, compute_metrics.
  repeat split.
  - now intros ->.
  - intros [tpl ->] ->. reflexivity.
  - intros [tpl ->] [os ->] ->. reflexivity.
Qed.

(** X6. The report and the bundle agree: the subject is the title the
    template receives, taken from [REPORT_TITLE] or the default, and the
    image the report refers to carries the name of the first attachment. *)
Theorem report_agrees_with_bundle (w w' : World) (b : ArtifactBundle) :
  build_bundle w = Ok (w', b) ->
  exists tpl ctx chart,
    get_template w "report.html.j2" = Ok tpl /\
    html_body b = render false tpl ctx /\
    title ctx = subject b /\
    subject b = default "Sales Report" (environ w !! "REPORT_TITLE") /\
    generated_at ctx = strftime_minute (now w) /\
    chart_path ctx = "revenue_chart.png" /\
    hd_error (attachments b) = Some (chart_path ctx, chart, "image/png").
Proof.
  intros H.
  destruct (build_bundle_inv w w' b H)
    as (df & ds & rs & html & _ & _ & _ & Hh & _ & ->).
  destruct (render_html_inv w df chart_file html Hh) as (tpl & ctx & Ht & Hc & ->).
  destruct (report_context_fields w df chart_file ctx Hc) as (Hti & Hg & Hp).
  assert (Hbase : basename chart_file = "revenue_chart.png").
  { unfold chart_file. apply basename_of_joined. reflexivity. }
  exists tpl, ctx, (savefig ds rs). unfold bundle_of.
  cbn [subject html_body attachments]. rewrite Hp, Hbase.
  repeat split; try assumption;
    try (unfold getenv; now destruct (environ w !! "REPORT_TITLE")).
  now destruct (enable_pdf w).
Qed.
End MoreRunProperties.

(** ** Sorting keeps the records whole *)

Lemma nth_error_seq_all {A : Type} (l : list A) :
  map (nth_error l) (seq 0 (length l)) = map Some l.
Proof.
  induction l as [|a l IH]; [reflexivity|].
  cbn [length seq map nth_error]. f_equal.
  rewrite <- seq_shift, map_map. exact IH.
Qed.

Lemma selected_rows_map {A : Type} (tbl : list A) (idx : list nat) (rs : list A) :
  Forall2 (fun i r => nth_error tbl i = Some r) idx rs ->
  map (nth_error tbl) idx = map Some rs.
Proof. induction 1; simpl; congruence. Qed.

Lemma map_Some_inj {A : Type} (l l' : list A) :
  map Some l = map Some l' -> l = l'.
Proof.
  revert l'. induction l as [|a l IH]; intros [|b l'] H; try discriminate;
    [reflexivity|].
  injection H as -> H. f_equal. now apply IH.
Qed.

Lemma selected_rows_perm {A : Type} (tbl : list A) (idx : list nat) (rs : list A) :
  Forall2 (fun i r => nth_error tbl i = Some r) idx rs ->
  Permutation idx (seq 0 (length tbl)) -> Permutation rs tbl.
Proof.
  intros Hsel Hperm.
  apply (Permutation_map (nth_error tbl)) in Hperm.
  rewrite (selected_rows_map _ _ _ Hsel), nth_error_seq_all in Hperm.
  apply Permutation_map_inv in Hperm as (l3 & Heq & Hp).
  apply map_Some_inj in Heq as ->. now symmetry.
Qed.

Lemma selected_rows_sorted (tbl : list SalesRecord) (idx : list nat)
    (rs : list SalesRecord) :
  Forall2 (fun i r => nth_error tbl i = Some r) idx rs ->
  StronglySorted
    (fun i j => before (nth i (map revenue tbl) S754_nan)
                       (nth j (map revenue tbl) S754_nan) = true) idx ->
  StronglySorted (fun a b => before (revenue a) (revenue b) = true) rs.
Proof.
  assert (Hkey : forall i r, nth_error tbl i = Some r ->
                             nth i (map revenue tbl) S754_nan = revenue r).
  { intros i r H. apply nth_error_nth. now rewrite nth_error_map, H. }
  induction 1 as [|i r idx rs Hi Hsel IH]; intros Hs; [constructor|].
  inversion Hs as [|? ? Hs' Hall]; subst. constructor; [now apply IH|].
  clear IH Hs Hs'. induction Hsel as [|j q idx rs Hj _ IH]; [constructor|].
  inversion Hall as [|? ? Hij Hall']; subst. constructor; [|now apply IH].
  now rewrite (Hkey _ _ Hi), (Hkey _ _ Hj) in Hij.
Qed.

(** X8. [sort_values] returns the records of the Table, each with its own
    date, orders and revenue, rearranged by descending revenue with the
    missing revenues last. *)
Theorem sort_values_rearranges_records
    (RT : Runtime) (RTok : RuntimeOk RT) (tbl : list SalesRecord) :
  exists rs,
    sort_values_revenue_descending (from_records tbl) = Ok (from_records rs) /\
    Permutation rs tbl /\
    StronglySorted (fun a b => before (revenue a) (revenue b) = true) rs.
Proof.
  pose proof (nargsort_descending_ok (map revenue tbl)) as Hd.
  pose proof (descending_index_in_range _ _ Hd) as Hr.
  rewrite length_map in Hr.
  destruct (take_from_records tbl _ Hr) as (rs & Hsel & Htake).
  exists rs. split; [exact Htake|]. destruct Hd as [Hperm Hsorted].
  rewrite length_map in Hperm. split.
  - eapply selected_rows_perm; eassumption.
  - eapply selected_rows_sorted; eassumption.
Qed.

(** ** The total of the orders column *)

Lemma sum_Z_perm (xs ys : list Z) : Permutation xs ys -> sum_Z xs = sum_Z ys.
Proof. induction 1; simpl; lia. Qed.

Lemma sum_Z_app (xs ys : list Z) : sum_Z (xs ++ ys) = sum_Z xs + sum_Z ys.
Proof. induction xs as [|x xs IH]; simpl; lia. Qed.

(** X9. The [int64] total stays in the signed 64-bit range, does not depend
    on the order of the rows, and the total of two batches of rows is the
    wrapped sum of their totals. *)
Theorem sum_int64_properties (xs ys : list Z) :
  - 2 ^ 63 <= sum_int64 xs < 2 ^ 63 /\
  (Permutation xs ys -> sum_int64 xs = sum_int64 ys) /\
  sum_int64 (xs ++ ys) = wrap64 (sum_int64 xs + sum_int64 ys).
Proof.
  rewrite !sum_int64_wraps. split; [apply wrap64_range|]. split.
  - intros H. now rewrite (sum_Z_perm _ _ H).
  - rewrite sum_Z_app, wrap64_add_l.
    rewrite (Z.add_comm (sum_Z xs)), <- wrap64_add_l.
    f_equal. apply Z.add_comm.
Qed.


(** ** Reading decimal digits *)

Lemma digits_value_from_acc (d : Decimal.uint) (acc : positive) :
  digits_value_from (Npos acc)
    (list_ascii_of_string (NilEmpty.string_of_uint d))
  = Npos (Pos.of_uint_acc d acc).
Proof.
  revert acc. induction d; intros acc; cbn [NilEmpty.string_of_uint
    list_ascii_of_string Pos.of_uint_acc]; [reflexivity|..];
    unfold digits_value_from in *; cbn [fold_left];
    rewrite <- IHd; f_equal; unfold digit_value;
    match goal with
    | |- context [N.of_nat ?t] =>
        let v := eval vm_compute in (N.of_nat t) in
        change (N.of_nat t) with v
    end; lia.
Qed.

Lemma digits_value_of_uint (d : Decimal.uint) :
  digits_value (list_ascii_of_string (NilEmpty.string_of_uint d))
  = Pos.of_uint d.
Proof.
  unfold digits_value.
  induction d; cbn [NilEmpty.string_of_uint list_ascii_of_string Pos.of_uint];
    [reflexivity|exact IHd|..];
    rewrite <- digits_value_from_acc; reflexivity.
Qed.

Lemma digits_value_str_N (n : N) :
  digits_value (list_ascii_of_string (str_N n)) = n.
Proof.
  unfold str_N, NilZero.string_of_uint.
  rewrite <- (DecimalN.Unsigned.of_to n) at 2. unfold N.of_uint.
  destruct (N.to_uint n) eqn:E; try apply digits_value_of_uint.
  reflexivity.
Qed.

Lemma digits_value_from_app (acc : N) (cs ds : list ascii) :
  digits_value_from acc (cs ++ ds)
  = digits_value_from (digits_value_from acc cs) ds.
Proof. apply fold_left_app. Qed.

Lemma digits_value_two (acc : N) (a b : ascii) :
  digits_value_from acc [a; b] = (100 * acc + digits_value [a; b])%N.
Proof. unfold digits_value, digits_value_from. simpl. lia. Qed.

Lemma pad2_value_any (n : N) :
  digits_value (list_ascii_of_string (pad2 n)) = n.
Proof.
  unfold pad2. destruct (n <? 10)%N; [|apply digits_value_str_N].
  rewrite list_ascii_of_string_app. unfold digits_value.
  rewrite digits_value_from_app. apply digits_value_str_N.
Qed.

Lemma pad2_value (n : N) :
  (n < 100)%N ->
  exists a b, list_ascii_of_string (pad2 n) = [a; b] /\
              is_digit a = true /\ is_digit b = true /\
              digits_value [a; b] = n.
Proof.
  intros H. destruct (pad2_two_digits n H) as (a & b & E & Ha & Hb).
  exists a, b. pose proof (pad2_value_any n) as Hv. rewrite E in Hv.
  now rewrite E.
Qed.

Lemma filter_digits_id (l : list ascii) :
  Forall (fun c => is_digit c = true) l -> List.filter is_digit l = l.
Proof. induction 1 as [|c l Hc _ IH]; simpl; [reflexivity|]. now rewrite Hc, IH. Qed.

Lemma filter_digits_commas_rev (n : nat) (ds : list ascii) :
  (length ds <= n)%nat ->
  Forall (fun c => is_digit c = true) ds ->
  List.filter is_digit (commas_rev ds) = ds.
Proof.
  revert ds. induction n as [|n IH]; intros ds Hlen Hd.
  - destruct ds; [reflexivity|simpl in Hlen; lia].
  - destruct ds as [|a [|b [|c [|d rest]]]]; try (now apply filter_digits_id).
    rewrite commas_rev_more.
    pose proof Hd as Hd0.
    inversion Hd as [|? ? Ha Hd1]; subst. inversion Hd1 as [|? ? Hb Hd2]; subst.
    inversion Hd2 as [|? ? Hc Hd3]; subst.
    cbn [List.filter]. rewrite Ha, Hb, Hc.
    change (is_digit ",") with false. cbn iota.
    rewrite IH; [reflexivity|simpl in *; lia|exact Hd3].
Qed.

Lemma hundredths_nonneg (m : positive) (e : Z) : 0 <= hundredths m e.
Proof.
  unfold hundredths. destruct (0 <=? e) eqn:E.
  - apply Z.leb_le in E. pose proof (Z.pow_nonneg 2 e). nia.
  - assert (Hd : 0 < 2 ^ (- e)) by (apply Z.pow_pos_nonneg; lia).
    pose proof (Z.div_pos (Z.pos m * 100) (2 ^ (- e)) ltac:(lia) Hd).
    cbv zeta. repeat match goal with |- context [if ?c then _ else _] =>
                       destruct c end; lia.
Qed.

Lemma format_hundredths_chars (h : Z) :
  list_ascii_of_string (format_hundredths h)
  = (List.rev (commas_rev
                 (List.rev (list_ascii_of_string (str_N (Z.to_N (h / 100))))))
     ++ "."%char :: list_ascii_of_string (pad2 (Z.to_N (h mod 100))))%list.
Proof.
  unfold format_hundredths, group_thousands.
  now rewrite !list_ascii_of_string_app, list_ascii_of_string_of_list_ascii.
Qed.

Lemma read_digits_of_format (h : Z) :
  0 <= h ->
  digits_value (List.filter is_digit (list_ascii_of_string (format_hundredths h)))
  = Z.to_N h.
Proof.
  intros Hh. rewrite format_hundredths_chars.
  destruct (pad2_value (Z.to_N (h mod 100))) as (a & b & -> & Ha & Hb & Hv).
  { pose proof (Z.mod_pos_bound h 100). lia. }
  set (D := list_ascii_of_string (str_N (Z.to_N (h / 100)))).
  assert (HD : Forall (fun c => is_digit c = true) D) by apply str_N_digits.
  rewrite List.filter_app, List.filter_rev.
  rewrite (filter_digits_commas_rev (length (List.rev D)))
    by (auto using Forall_rev).
  rewrite rev_involutive. cbn [List.filter]. change (is_digit ".") with false.
  cbn iota. rewrite Ha, Hb.
  unfold digits_value. rewrite digits_value_from_app, digits_value_two, Hv.
  fold (digits_value D). unfold D. rewrite digits_value_str_N.
  pose proof (Z.div_mod h 100 ltac:(lia)) as Hdm.
  pose proof (Z.mod_pos_bound h 100 ltac:(lia)).
  pose proof (Z.div_pos h 100 Hh ltac:(lia)). lia.
Qed.

Lemma format_currency_chars (sign : bool) (h : Z) :
  list_ascii_of_string ("$" ++ (if sign then "-" else "") ++ format_hundredths h)
  = "$"%char ::
    ((if sign then ["-"%char] else []) ++
     list_ascii_of_string (format_hundredths h))%list.
Proof. rewrite !list_ascii_of_string_app. now destruct sign. Qed.

Lemma format_hundredths_head (h : Z) :
  exists c rest, list_ascii_of_string (format_hundredths h) = c :: rest /\
                 Ascii.eqb c "-" = false.
Proof.
  destruct (format_hundredths_shape h) as (ds & a & b & Hne & Hd & _ & _ & ->).
  pose proof (commas_rev_chars _ ds (Nat.le_refl _) Hd) as Hc.
  apply Forall_rev in Hc.
  destruct (List.rev (commas_rev ds)) as [|c rest] eqn:E.
  - exfalso. apply (commas_rev_nonempty ds Hne).
    apply (f_equal (@List.rev ascii)) in E. now rewrite rev_involutive in E.
  - exists c, (rest ++ ["."%char; a; b])%list. split; [reflexivity|].
    inversion Hc as [|? ? Hcc _]; subst.
    destruct (Ascii.eqb_spec c "-") as [->|]; [discriminate Hcc|reflexivity].
Qed.

Lemma read_currency_signed (sign : bool) (h : Z) :
  0 <= h ->
  read_currency ("$" ++ (if sign then "-" else "") ++ format_hundredths h)
  = Some (sign, Z.to_N h).
Proof.
  intros Hh. unfold read_currency.
  rewrite currency_syntax_signed, format_currency_chars.
  pose proof (read_digits_of_format h Hh) as Hv.
  destruct sign; cbn [app].
  - cbn [List.filter]. change (is_digit "-") with false. cbn iota.
    now rewrite Hv.
  - destruct (format_hundredths_head h) as (c & rest & E & Hc).
    rewrite E in Hv |- *. now rewrite Hc, Hv.
Qed.

(** X10. An amount printed in the currency format reads back as the sign and
    the number of hundredths of the value: the digits of the report are
    the value rounded to hundredths, and two finite values print alike
    only when they round to the same amount. *)
Theorem read_currency_format (x y : float64) :
  isfinite x = true ->
  read_currency (format_currency x) = printed_amount x /\
  (isfinite y = true -> format_currency x = format_currency y ->
   printed_amount x = printed_amount y).
Proof.
  assert (H : forall z, isfinite z = true ->
                        read_currency (format_currency z) = printed_amount z).
  { intros [s|s| |s m e]; try discriminate; intros _;
      unfold format_currency, format_2f, printed_amount.
    - now rewrite read_currency_signed.
    - rewrite read_currency_signed by apply hundredths_nonneg. reflexivity. }
  intros Hx. split; [now apply H|].
  intros Hy E. rewrite <- (H x Hx), <- (H y Hy). now rewrite E.
Qed.

(** ** Rounding to hundredths *)

(** X11. The number of hundredths printed for [m * 2^e] is exact when [e] is
    not negative; otherwise it is within half a hundredth of the value,
    and on a tie it is the even neighbour. *)
Theorem hundredths_is_nearest (m : positive) (e : Z) :
  (0 <= e -> hundredths m e = Zpos m * 2 ^ e * 100) /\
  (e < 0 ->
   2 * Z.abs (hundredths m e * 2 ^ (- e) - Zpos m * 100) <= 2 ^ (- e) /\
   (2 * Z.abs (hundredths m e * 2 ^ (- e) - Zpos m * 100) = 2 ^ (- e) ->
    Z.even (hundredths m e) = true)).
Proof.
  unfold hundredths. split.
  - intros H. apply Z.leb_le in H. now rewrite H.
  - intros H. assert (E : (0 <=? e) = false) by (apply Z.leb_gt; lia).
    rewrite E. cbv zeta.
    assert (Hd : 0 < 2 ^ (- e)) by (apply Z.pow_pos_nonneg; lia).
    set (d := 2 ^ (- e)) in *. set (n := Z.pos m * 100).
    pose proof (Z.div_mod n d ltac:(lia)) as Hdm.
    pose proof (Z.mod_pos_bound n d Hd) as Hr.
    set (q := n / d) in *. set (r := n mod d) in *.
    destruct (2 * r <? d) eqn:E1; [apply Z.ltb_lt in E1|apply Z.ltb_ge in E1].
    { split; [nia|]. intros Habs. exfalso. nia. }
    destruct (d <? 2 * r) eqn:E2; [apply Z.ltb_lt in E2|apply Z.ltb_ge in E2].
    { split; [nia|]. intros Habs. exfalso. nia. }
    destruct (Z.even q) eqn:E3.
    { split; [nia|]. intros _. exact E3. }
    split; [nia|]. intros _. rewrite Z.even_add, E3. reflexivity.
Qed.

(** ** Dates as the report prints them *)


Lemma all_digits_cons (c : ascii) (s : string) :
  all_digits (String c s) -> is_digit c = true /\ all_digits s.
Proof. intros H. now inversion H. Qed.

(** Two digit strings followed by a hyphen and more text are equal only
    when the digit strings and the rest are. *)
Lemma digits_hyphen_inj (s1 s2 t1 t2 : string) :
  all_digits s1 -> all_digits s2 ->
  s1 ++ String "-" t1 = s2 ++ String "-" t2 -> s1 = s2 /\ t1 = t2.
Proof.
  revert s2. induction s1 as [|c s1 IH]; intros [|d s2] H1 H2 E.
  - now injection E.
  - rewrite append_cons in E. injection E as <- _.
    apply all_digits_cons in H2 as [H2 _]. discriminate H2.
  - rewrite append_cons in E. injection E as -> _.
    apply all_digits_cons in H1 as [H1 _]. discriminate H1.
  - rewrite !append_cons in E. injection E as -> E.
    apply all_digits_cons in H1 as [_ H1]. apply all_digits_cons in H2 as [_ H2].
    destruct (IH s2 H1 H2 E) as [-> ->]. now split.
Qed.

Lemma pad2_digits (n : N) : all_digits (pad2 n).
Proof.
  unfold pad2, all_digits. destruct (n <? 10)%N.
  - rewrite list_ascii_of_string_app. apply Forall_app. split.
    + repeat constructor.
    + apply str_N_digits.
  - apply str_N_digits.
Qed.

Lemma str_N_inj (n n' : N) : str_N n = str_N n' -> n = n'.
Proof.
  intros H. rewrite <- (digits_value_str_N n), <- (digits_value_str_N n').
  now rewrite H.
Qed.

Lemma pad2_inj (n n' : N) : pad2 n = pad2 n' -> n = n'.
Proof.
  intros H. rewrite <- (pad2_value_any n), <- (pad2_value_any n').
  now rewrite H.
Qed.

Lemma four_digit_years (y : N) :
  (1000 <= y <= 9999)%N -> String.length (str_N y) = 4%nat.
Proof.
  intros H.
  assert (Hall : forallb
                   (fun k => Nat.eqb (String.length (str_N (1000 + N.of_nat k))) 4)
                   (seq 0 (90 * 100)) = true) by (vm_compute; reflexivity).
  rewrite forallb_forall in Hall.
  specialize (Hall (N.to_nat (y - 1000))).
  replace (1000 + N.of_nat (N.to_nat (y - 1000)))%N with y in Hall by lia.
  apply Nat.eqb_eq, Hall, in_seq. lia.
Qed.

Lemma length_append (s t : string) :
  String.length (s ++ t) = (String.length s + String.length t)%nat.
Proof.
  induction s as [|c s IH]; [reflexivity|].
  rewrite append_cons. simpl. now rewrite IH.
Qed.

(** X12. Dates that differ in year, month or day are printed differently; a
    date with a four-digit year and a month and day below 100 is printed
    on ten characters, as YYYY-MM-DD. *)
Theorem strftime_date_faithful (t t' : datetime) :
  (strftime_date t = strftime_date t' ->
   year t = year t' /\ month t = month t' /\ day t = day t') /\
  ((1000 <= year t <= 9999)%N -> (month t < 100)%N -> (day t < 100)%N ->
   String.length (strftime_date t) = 10%nat /\
   exists y m d,
     strftime_date t = y ++ "-" ++ m ++ "-" ++ d /\
     String.length y = 4%nat /\ String.length m = 2%nat /\
     String.length d = 2%nat /\ all_digits y /\ all_digits m /\ all_digits d).
Proof.
  unfold strftime_date. split.
  - intros E.
    apply digits_hyphen_inj in E as [Ey E]; try apply str_N_digits.
    apply digits_hyphen_inj in E as [Em Ed]; try apply pad2_digits.
    apply str_N_inj in Ey. apply pad2_inj in Em. apply pad2_inj in Ed. auto.
  - intros Hy Hm Hd.
    destruct (pad2_two_digits _ Hm) as (m1 & m2 & Em & _).
    destruct (pad2_two_digits _ Hd) as (d1 & d2 & Ed & _).
    pose proof (four_digit_years _ Hy) as Hlen. split.
    + rewrite !length_append, Hlen, Em, Ed. reflexivity.
    + exists (str_N (year t)), (pad2 (month t)), (pad2 (day t)).
      repeat split; try assumption.
      * now rewrite Em.
      * now rewrite Ed.
      * apply str_N_digits.
      * apply pad2_digits.
      * apply pad2_digits.
Qed.



(** ** Stripping and splitting *)

Section MailerFacts.
Import Mailer.

Lemma lstrip_fixed (s : string) : lstrip (lstrip s) = lstrip s.
Proof.
  induction s as [|c s IH]; [reflexivity|]. simpl.
  destruct (is_space c) eqn:E; [exact IH|]. simpl. now rewrite E.
Qed.

Lemma rstrip_fixed (s : string) : rstrip (rstrip s) = rstrip s.
Proof.
  induction s as [|c s IH]; [reflexivity|]. simpl.
  destruct (rstrip s) as [|d t] eqn:E.
  - destruct (is_space c) eqn:Ec; [reflexivity|]. simpl. now rewrite Ec.
  - simpl in IH |- *. now rewrite IH.
Qed.

Lemma lstrip_rstrip (t : string) : lstrip t = t -> lstrip (rstrip t) = rstrip t.
Proof.
  destruct t as [|c t]; [reflexivity|]. simpl.
  destruct (is_space c) eqn:Ec.
  - intros H. exfalso.
    assert (Hlen : forall u, (String.length (lstrip u) <= String.length u)%nat).
    { induction u as [|a u IHu]; simpl; [lia|].
      destruct (is_space a); simpl; lia. }
    specialize (Hlen t). rewrite H in Hlen. simpl in Hlen. lia.
  - intros _. destruct (rstrip t); simpl; now rewrite Ec.
Qed.

Lemma strip_fixed (s : string) : strip (strip s) = strip s.
Proof.
  unfold strip. rewrite lstrip_rstrip by apply lstrip_fixed.
  apply rstrip_fixed.
Qed.

Lemma contains_char_cons (c x : ascii) (s : string) :
  contains (String c s) (String x "") = Ascii.eqb c x || contains s (String x "").
Proof.
  simpl. destruct s; simpl; now rewrite andb_true_r.
Qed.

Lemma lstrip_no_char (x : ascii) (s : string) :
  contains s (String x "") = false -> contains (lstrip s) (String x "") = false.
Proof.
  induction s as [|c s IH]; [auto|]. intros H. simpl.
  destruct (is_space c); [|exact H].
  rewrite contains_char_cons in H. apply orb_false_iff in H as [_ H]. auto.
Qed.

Lemma rstrip_no_char (x : ascii) (s : string) :
  contains s (String x "") = false -> contains (rstrip s) (String x "") = false.
Proof.
  induction s as [|c s IH]; [auto|]. intros H.
  rewrite contains_char_cons in H. apply orb_false_iff in H as [Hc H].
  specialize (IH H). simpl. destruct (rstrip s) as [|d t].
  - destruct (is_space c); [reflexivity|].
    rewrite contains_char_cons, Hc. reflexivity.
  - rewrite contains_char_cons, Hc. exact IH.
Qed.

Lemma split_no_sep (sep : ascii) (s : string) :
  Forall (fun p => contains p (String sep "") = false) (split sep s).
Proof.
  induction s as [|c s IH]; simpl; [repeat constructor|].
  destruct (Ascii.eqb c sep) eqn:E; [constructor; [reflexivity|exact IH]|].
  destruct (split sep s) as [|x xs]; [repeat constructor|].
  - rewrite contains_char_cons, E. reflexivity.
  - inversion IH as [|? ? Hx Hxs]; subst. constructor; [|exact Hxs].
    rewrite contains_char_cons, E. exact Hx.
Qed.

Lemma split_whole (sep : ascii) (a : string) :
  contains a (String sep "") = false -> split sep a = [a].
Proof.
  induction a as [|c a IH]; [reflexivity|]. intros H.
  rewrite contains_char_cons in H. apply orb_false_iff in H as [Hc H].
  simpl. now rewrite Hc, (IH H).
Qed.

Lemma split_at_sep (sep : ascii) (a t : string) :
  contains a (String sep "") = false ->
  split sep (a ++ String sep t) = a :: split sep t.
Proof.
  induction a as [|c a IH]; intros H.
  - simpl. now rewrite Ascii.eqb_refl.
  - rewrite contains_char_cons in H. apply orb_false_iff in H as [Hc H].
    rewrite append_cons. simpl. now rewrite Hc, (IH H).
Qed.


Lemma strip_after_space (a : string) : strip (" " ++ a) = strip a.
Proof. reflexivity. Qed.

Lemma split_join_clean (pre : string) (l : list string) :
  (pre = "" \/ pre = " ") -> l <> [] -> Forall clean l ->
  map strip (split "," (pre ++ join ", " l)) = l.
Proof.
  intros Hpre Hne Hl. revert pre Hpre.
  induction Hl as [|a l (Ha1 & Ha2 & Ha3) Hl IH]; intros pre Hpre; [congruence|].
  assert (Hstrip : strip (pre ++ a) = a).
  { destruct Hpre as [-> | ->]; [exact Ha2|]. now rewrite strip_after_space. }
  assert (Hnc : contains (pre ++ a) "," = false).
  { destruct Hpre as [-> | ->]; [exact Ha3|].
    change (" " ++ a) with (String " " a). now rewrite contains_char_cons. }
  destruct l as [|b l].
  - simpl. rewrite split_whole by exact Hnc. simpl. now rewrite Hstrip.
  - change (join ", " (a :: b :: l)) with (a ++ ", " ++ join ", " (b :: l)).
    rewrite <- append_assoc_string.
    change (", " ++ join ", " (b :: l))
      with (String "," (" " ++ join ", " (b :: l))).
    rewrite split_at_sep by exact Hnc. cbn [map]. rewrite Hstrip. f_equal.
    apply (IH ltac:(discriminate) " "). now right.
Qed.
End MailerFacts.

(** ** The recipients and the settings *)

(** X13. Every recipient the program keeps is not empty, has no comma and has
    no white space around it. *)
Theorem recipients_are_clean (s a : string) :
  Mailer.ascii_text s = true ->
  In a (Mailer.recipients s) ->
  a <> "" /\ Mailer.strip a = a /\ contains a "," = false.
Proof.
  unfold Mailer.recipients. intros _ H.
  apply filter_In in H as [H Hne]. apply in_map_iff in H as (p & <- & Hp).
  split; [|split].
  - intros E. unfold Mailer.nonempty in Hne. now rewrite E in Hne.
  - apply strip_fixed.
  - pose proof (split_no_sep "," s) as Hs. rewrite List.Forall_forall in Hs.
    unfold Mailer.strip. apply rstrip_no_char, lstrip_no_char. now apply Hs.
Qed.

(** X14. The [To] header the program writes reads back as its recipients:
    joining addresses with a comma and a space and taking the recipients
    of the result returns the addresses. *)
Theorem recipients_of_joined (l : list string) :
  Forall (fun a => Mailer.ascii_text a = true) l ->
  Forall (fun a => a <> "" /\ Mailer.strip a = a /\ contains a "," = false) l ->
  Mailer.recipients (Mailer.join ", " l) = l.
Proof.
  intros _ Hl. unfold Mailer.recipients. destruct l as [|a l]; [reflexivity|].
  pose proof (split_join_clean "" (a :: l) (or_introl eq_refl)
                ltac:(discriminate) Hl) as H.
  change ("" ++ Mailer.join ", " (a :: l)) with (Mailer.join ", " (a :: l)) in H.
  rewrite H. clear H.
  induction Hl as [|b l' (Hb & _) _ IH]; [reflexivity|].
  simpl. unfold Mailer.nonempty at 1.
  destruct (String.eqb_spec b ""); [contradiction|]. simpl. now rewrite IH.
Qed.




(** X18. The mail settings are read last and from an environment the run
    has not changed: a run that builds its bundle and then finds the
    settings wanting fails in [send_email] with the report already on
    disk, for a reason that stood before the run began. *)
Theorem settings_fail_after_report {RT : Runtime}
    (w w' : World) (b : ArtifactBundle) :
  build_bundle w = Ok (w', b) ->
  Mailer.mail_settings w' = Mailer.mail_settings w /\
  (forall transmit e,
     Mailer.mail_settings w = Mailer.Failed e ->
     Mailer.send_email transmit (subject b) (html_body b) (attachments b) w'
     = Mailer.Failed e /\
     files w' !! html_file = Some (html_body b) /\
     is_Some (files w' !! chart_file)).
Proof.
  intros H.
  destruct (build_bundle_inv w w' b H)
    as (df & ds & rs & html & _ & _ & _ & _ & Hw & Hb).
  assert (Hs : Mailer.mail_settings w' = Mailer.mail_settings w).
  { rewrite Hw. unfold world_after. now destruct (enable_pdf w). }
  split; [exact Hs|]. intros transmit e He.
  split; [unfold Mailer.send_email; now rewrite Hs, He|].
  pose proof html_file_not_chart_file as Hhc.
  pose proof pdf_file_not_chart_file as Hpc.
  pose proof pdf_file_not_html_file as Hph.
  rewrite Hw, Hb. unfold world_after, bundle_of.
  destruct (enable_pdf w); cbn [files write_file html_body]; split.
  - rewrite lookup_insert_ne by congruence. apply lookup_insert_eq.
  - rewrite !lookup_insert_ne by congruence. rewrite lookup_insert_eq. eauto.
  - apply lookup_insert_eq.
  - rewrite lookup_insert_ne by congruence. rewrite lookup_insert_eq. eauto.
Qed.

(** X17. [load_env] leaves every variable that is already set as it is, adds
    the others from the [.env] file, and touches nothing else; with
    [ENABLE_PDF] set in the environment the file has no say in whether
    the PDF is made. *)
Theorem load_env_keeps_environment
    (dotenv : option (gmap string string)) (w : World) (k : string) :
  (forall v, environ w !! k = Some v ->
             environ (load_env dotenv w) !! k = Some v) /\
  (environ w !! k = None ->
   environ (load_env dotenv w) !! k = dotenv ≫= (fun vars => vars !! k)) /\
  datasets (load_env dotenv w) = datasets w /\
  templates (load_env dotenv w) = templates w /\
  files (load_env dotenv w) = files w /\
  (is_Some (environ w !! "ENABLE_PDF") ->
   enable_pdf (load_env dotenv w) = enable_pdf w).
Proof.
  destruct dotenv as [vars|]; cbn [load_env environ datasets templates
                                   files mbind option_bind];
    repeat split; auto.
  - intros v H. now apply lookup_union_Some_l.
  - intros H. now rewrite lookup_union_r.
  - intros [v Hv]. unfold enable_pdf, getenv. cbn [environ].
    now rewrite (lookup_union_Some_l _ vars _ _ Hv), Hv.
Qed.


(** ** Instances of the properties *)

Lemma run_fails_only_in_loading_or_rendering_witness :
  let w := sample_world [] (from_records sample_table) in
  (exists df html,
     read_data (RT := stable_runtime) w = Ok df /\
     render_html (RT := stable_runtime) w df (chart_file (RT := stable_runtime))
     = Ok html) /\
  is_ok (build_bundle (RT := stable_runtime) w) = true.
Proof.
  intros w.
  assert (H : exists df html,
             read_data (RT := stable_runtime) w = Ok df /\
             render_html (RT := stable_runtime) w df
               (chart_file (RT := stable_runtime)) = Ok html).
  { exists (from_records sample_table). eexists.
    split; [vm_compute; reflexivity|]. vm_compute. reflexivity. }
  split; [exact H|].
  now apply (proj2 (run_fails_only_in_loading_or_rendering
                      (RT := stable_runtime) w)).
Defined.

Lemma run_succeeds_on_nonempty_table_witness :
  let w := sample_world [] (from_records sample_table) in
  datasets w !! data_path (RT := stable_runtime) = Some (from_records sample_table) /\
  get_template (RT := stable_runtime) w "report.html.j2" = Ok report_template /\
  sample_table <> [] /\
  exists w' b,
    build_bundle (RT := stable_runtime) w = Ok (w', b) /\
    length (attachments b) = 2%nat.
Proof.
  intros w.
  assert (Hf : datasets w !! data_path (RT := stable_runtime)
               = Some (from_records sample_table)) by (vm_compute; reflexivity).
  assert (Ht : get_template (RT := stable_runtime) w "report.html.j2"
               = Ok report_template) by (vm_compute; reflexivity).
  assert (Hne : sample_table <> []) by discriminate.
  do 3 (split; [assumption|]).
  destruct (run_succeeds_on_nonempty_table (RT := stable_runtime)
              (RTok := stable_runtime_ok) w sample_table report_template
              Hf Ht Hne) as (w' & b & Hb & Hlen & _).
  exists w', b. split; [exact Hb|]. rewrite Hlen. vm_compute. reflexivity.
Defined.

Lemma run_writes_only_its_outputs_witness :
  let w := sample_world [] (from_records sample_table) in
  exists w' b,
    build_bundle (RT := stable_runtime) w = Ok (w', b) /\
    environ w' = environ w /\
    files w' !! html_file (RT := stable_runtime) = Some (html_body b).
Proof.
  intros w.
  destruct (build_bundle (RT := stable_runtime) w) as [[w' b]|e] eqn:E;
    [|vm_compute in E; discriminate E].
  destruct (run_writes_only_its_outputs (RT := stable_runtime) w w' b E)
    as (He & _ & _ & _ & _ & Hh & _).
  exists w', b. split; [reflexivity|]. split; [exact He|exact Hh].
Defined.

Lemma empty_dataset_fails_after_chart_witness :
  let w := sample_world [] (from_records []) in
  datasets w !! data_path (RT := stable_runtime) = Some (from_records []) /\
  get_template (RT := stable_runtime) w "report.html.j2" = Ok report_template /\
  build_and_send (RT := stable_runtime) w = Raise IndexError.
Proof.
  intros w.
  assert (Hf : datasets w !! data_path (RT := stable_runtime)
               = Some (from_records [])) by (vm_compute; reflexivity).
  assert (Ht : get_template (RT := stable_runtime) w "report.html.j2"
               = Ok report_template) by (vm_compute; reflexivity).
  do 2 (split; [assumption|]).
  destruct (empty_dataset_fails_after_chart (RT := stable_runtime) w
              report_template Hf Ht) as (w1 & _ & _ & _ & _ & H).
  exact H.
Defined.

Lemma render_html_lookup_order_witness :
  templates bare_world
    !! path_join (templates_dir (RT := stable_runtime)) "report.html.j2" = None /\
  render_html (RT := stable_runtime) bare_world (from_records sample_table)
    "chart.png"
  = Raise (TemplateNotFound "report.html.j2").
Proof.
  assert (H : templates bare_world
                !! path_join (templates_dir (RT := stable_runtime))
                     "report.html.j2" = None) by reflexivity.
  split; [exact H|].
  exact (proj1 (render_html_lookup_order (RT := stable_runtime) bare_world
                  (from_records sample_table) "chart.png") H).
Defined.

Lemma report_agrees_with_bundle_witness :
  let w := sample_world [("REPORT_TITLE", "Weekly")] (from_records sample_table) in
  exists w' b,
    build_bundle (RT := stable_runtime) w = Ok (w', b) /\
    subject b = "Weekly".
Proof.
  intros w.
  destruct (build_bundle (RT := stable_runtime) w) as [[w' b]|e] eqn:E;
    [|vm_compute in E; discriminate E].
  destruct (report_agrees_with_bundle (RT := stable_runtime) w w' b E)
    as (tpl & ctx & chart & _ & _ & _ & Hs & _).
  exists w', b. split; [reflexivity|]. rewrite Hs. reflexivity.
Defined.

Lemma sort_values_rearranges_records_witness :
  RuntimeOk stable_runtime /\
  exists rs,
    sort_values_revenue_descending (RT := stable_runtime)
      (from_records sample_table) = Ok (from_records rs) /\
    Permutation rs sample_table.
Proof.
  split; [exact stable_runtime_ok|].
  destruct (sort_values_rearranges_records stable_runtime stable_runtime_ok
              sample_table) as (rs & H & Hp & _).
  now exists rs.
Defined.

Lemma sum_int64_properties_witness :
  Permutation [1; 2; 3] [3; 1; 2] /\ sum_int64 [1; 2; 3] = sum_int64 [3; 1; 2].
Proof.
  assert (H : Permutation [1; 2; 3] [3; 1; 2]).
  { apply Permutation_sym. apply (Permutation_cons_app [1; 2] [] 3).
    reflexivity. }
  split; [exact H|].
  exact (proj1 (proj2 (sum_int64_properties [1; 2; 3] [3; 1; 2])) H).
Defined.

Lemma read_currency_format_witness :
  isfinite (b64 2469 (-1)) = true /\
  read_currency (format_currency (b64 2469 (-1))) = Some (false, 123450%N).
Proof.
  split; [reflexivity|].
  rewrite (proj1 (read_currency_format (b64 2469 (-1)) (b64 0 0) eq_refl)).
  reflexivity.
Defined.

Lemma hundredths_is_nearest_witness :
  -3 < 0 /\
  2 * Z.abs (hundredths 1 (-3) * 2 ^ (- -3) - Zpos 1 * 100) <= 2 ^ (- -3).
Proof.
  assert (H : -3 < 0) by reflexivity.
  split; [exact H|].
  exact (proj1 (proj2 (hundredths_is_nearest 1 (-3)) H)).
Defined.

Lemma recipients_are_clean_witness :
  Mailer.ascii_text " ann@example.org , bob@example.org," = true /\
  In "bob@example.org" (Mailer.recipients " ann@example.org , bob@example.org,") /\
  Mailer.strip "bob@example.org" = "bob@example.org".
Proof.
  assert (H : In "bob@example.org"
                (Mailer.recipients " ann@example.org , bob@example.org,"))
    by (vm_compute; auto).
  split; [reflexivity|]. split; [exact H|].
  exact (proj1 (proj2 (recipients_are_clean
                         " ann@example.org , bob@example.org,"
                         "bob@example.org" eq_refl H))).
Defined.

Lemma recipients_of_joined_witness :
  let l := ["ann@example.org"; "bob@example.org"] in
  Forall (fun a => Mailer.ascii_text a = true) l /\
  Forall (fun a => a <> "" /\ Mailer.strip a = a /\ contains a "," = false) l /\
  Mailer.recipients (Mailer.join ", " l) = l.
Proof.
  intros l.
  assert (Ha : Forall (fun a => Mailer.ascii_text a = true) l).
  { repeat constructor. }
  assert (H : Forall (fun a => a <> "" /\ Mailer.strip a = a /\
                               contains a "," = false) l).
  { repeat constructor; discriminate. }
  split; [exact Ha|]. split; [exact H|]. exact (recipients_of_joined l Ha H).
Defined.



Lemma load_env_keeps_environment_witness :
  let w := sample_world [("ENABLE_PDF", "false")] (from_records sample_table) in
  let dotenv : gmap string string := {[ "ENABLE_PDF" := "true" ]} in
  environ w !! "ENABLE_PDF" = Some "false" /\
  environ (load_env (Some dotenv) w) !! "ENABLE_PDF" = Some "false".
Proof.
  intros w dotenv.
  assert (H : environ w !! "ENABLE_PDF" = Some "false")
    by (vm_compute; reflexivity).
  split; [exact H|].
  exact (proj1 (load_env_keeps_environment (Some dotenv) w "ENABLE_PDF")
           "false" H).
Defined.

Lemma settings_fail_after_report_witness :
  let w := sample_world [] (from_records sample_table) in
  exists w' b,
    build_bundle (RT := stable_runtime) w = Ok (w', b) /\
    Mailer.mail_settings w' = Mailer.mail_settings w.
Proof.
  intros w.
  destruct (build_bundle (RT := stable_runtime) w) as [[w' b]|e] eqn:E;
    [|vm_compute in E; discriminate E].
  destruct (settings_fail_after_report (RT := stable_runtime) w w' b E)
    as [Hs _].
  exists w', b. split; [reflexivity|exact Hs].
Defined.

Lemma strftime_date_faithful_witness :
  (1000 <= year (jan 2) <= 9999)%N /\ (month (jan 2) < 100)%N /\
  (day (jan 2) < 100)%N /\
  String.length (strftime_date (jan 2)) = 10%nat.
Proof.
  assert (Hy : (1000 <= year (jan 2) <= 9999)%N) by (split; discriminate).
  assert (Hm : (month (jan 2) < 100)%N) by reflexivity.
  assert (Hd : (day (jan 2) < 100)%N) by reflexivity.
  do 3 (split; [assumption|]).
  exact (proj1 (proj2 (strftime_date_faithful (jan 2) (jan 2)) Hy Hm Hd)).
Defined.

Lemma basename_path_join_witness :
  contains "revenue_chart.png" "/" = false /\
  basename (path_join "/srv/report/out" "revenue_chart.png")
  = "revenue_chart.png".
Proof.
  split; [reflexivity|]. now apply basename_path_join.
Defined.
